(** * Young Caritas CO2 calculator: the request handlers of [app/main.py]

    A shallow embedding of the FastAPI handlers of [src/app/main.py] and of the
    state they share: the module-level table [items], the module-level
    variable [total_co2], the document store [mongo] and the process's
    standard output.  Handlers are functions from a world to a world and an
    outcome (a response, or a raised exception); a raised exception keeps the
    world as it was at the point of the raise, as in Python.

    Numbers: [count] is a Python int, modelled as [Z]; [co2] and [base_co2]
    are modelled as exact rationals ([Qc]), so [count * base_co2] is the
    exact product. *)

From Stdlib Require Import ZArith QArith Qcanon Lia.
From stdpp Require Import base decidable option list strings numbers.

Local Open Scope Z_scope.
Local Open Scope string_scope.

(** ** Data of the table [items] *)

(** An item dict: [{'name', 'count', 'co2', 'base_co2'}]. *)
Record Item := mkItem {
  name : string;
  count : Z;
  co2 : Qc;
  base_co2 : Qc
}.

(** A category dict: [{'category', 'items'}]. *)
Record Category := mkCategory {
  category : string;
  cat_items : list Item
}.

Definition set_count (item : Item) (n : Z) : Item :=
  mkItem (name item) n (co2 item) (base_co2 item).

Definition set_co2 (item : Item) (q : Qc) : Item :=
  mkItem (name item) (count item) q (base_co2 item).

Definition set_cat_items (c : Category) (l : list Item) : Category :=
  mkCategory (category c) l.

#[global] Instance Item_eq_dec : EqDecision Item.
Proof. solve_decision. Defined.

#[global] Instance Category_eq_dec : EqDecision Category.
Proof. solve_decision. Defined.

(** ** Exceptions and outcomes *)

Inductive exn :=
  | NameError (var : string)
  | PyMongoError (msg : string).

(** [str(e)] as the [except] clause of [renew] prints it. *)
Definition str (e : exn) : string :=
  match e with
  | NameError var => "name '" ++ var ++ "' is not defined"
  | PyMongoError msg => msg
  end.

Inductive outcome (A : Type) :=
  | Return (a : A)
  | Raise (e : exn).
Arguments Return {A} a.
Arguments Raise {A} e.

(** ** The document store [mongo = Co2()]

    The class [Co2] is imported from [mongo/mongo.py]; [main.py] shows its
    calls only.  Its collections and operations follow sections 3, 4.3 and 6
    of the specification: a collection of category documents (the persisted
    item records), the Session Ledger and the log of Logout Archive Entries.
    Section 7 names one kind of store failure, a persistence failure during
    commit; the writes of the commit ([update_item], [insert_session]) read
    their fate from the tape [faults]: [Some msg] makes the next write raise
    without writing, [None] or an exhausted tape lets it succeed. *)

(** An entry of [exc_items], lines 162-166. *)
Record ExcItem := mkExcItem {
  exc_name : string;
  exc_count : Z;
  exc_co2 : Qc
}.

(** The dict [exc_items] of [renew]: category name to list, in insertion order. *)
Definition ExcItems : Type := list (string * list ExcItem).

(** Modelled from the spec: the dict of [AppUtils.calculate_equivalents],
    whose code is in [utilities/utils.py]; the modes are those the comments
    of lines 44, 102 and 169 name. *)
Record Equivalents := mkEquivalents {
  car : Qc;
  bus : Qc;
  plane : Qc
}.

(** Modelled from the spec: a Session Record, the arguments of
    [mongo.insert_session] (section 3). *)
Record Session := mkSession {
  session_total_co2 : Qc;
  session_equivalents : Equivalents;
  exchanged_items : ExcItems
}.

(** Modelled from the spec: the cumulative totals [AppUtils.calculate_total]
    returns (section 3). *)
Record Totals := mkTotals {
  totals_co2 : Qc;
  totals_equivalents : Equivalents
}.

(** Modelled from the spec: a Logout Archive Entry, the arguments of
    [mongo.log_out] (section 3). *)
Record LogoutEntry := mkLogoutEntry {
  user_name : option string;
  sessions : Z;
  sorted_items : list Item;
  total : Totals
}.

(** Modelled from the spec: the state of an instance of [Co2], its three
    collections and the tape of faults. *)
Record Co2 := mkCo2 {
  coll_co2 : list Category;
  coll_sessions : list Session;
  coll_logs : list LogoutEntry;
  faults : list (option string)
}.

Module Co2Ops.

(** Modelled from the spec: [count_documents() -> int]. *)
Definition count_documents (m : Co2) : Z := Z.of_nat (length (coll_co2 m)).

(** Modelled from the spec: [insert_items(categories)]. *)
Definition insert_items (categories : list Category) (m : Co2) : Co2 :=
  mkCo2 (coll_co2 m ++ categories) (coll_sessions m) (coll_logs m) (faults m).

(** Modelled from the spec: one write of the commit, which consults the
    tape, then writes or raises (section 7, persistence failure during
    commit). *)
Definition commit_write (write : Co2 -> Co2) (m : Co2) : Co2 * outcome unit :=
  match faults m with
  | [] => (write m, Return tt)
  | None :: tape =>
      (write (mkCo2 (coll_co2 m) (coll_sessions m) (coll_logs m) tape), Return tt)
  | Some msg :: tape =>
      (mkCo2 (coll_co2 m) (coll_sessions m) (coll_logs m) tape, Raise (PyMongoError msg))
  end.

(** Modelled from the spec: the item record of name [nm] takes the count
    and co2. *)
Definition persist_item (nm : string) (n : Z) (q : Qc) (item : Item) : Item :=
  if decide (name item = nm) then mkItem (name item) n q (base_co2 item) else item.

(** Modelled from the spec: the same, within the document of category
    [cat]. *)
Definition persist_in (cat nm : string) (n : Z) (q : Qc) (c : Category) : Category :=
  if decide (category c = cat)
  then set_cat_items c (map (persist_item nm n q) (cat_items c))
  else c.

(** Modelled from the spec: replacing the item records. *)
Definition set_docs (docs : list Category) (m : Co2) : Co2 :=
  mkCo2 docs (coll_sessions m) (coll_logs m) (faults m).

(** Modelled from the spec: [update_item(category, name, count, co2)]
    persists the count and co2 into the item record of that category and
    name. *)
Definition update_item (cat nm : string) (n : Z) (q : Qc) : Co2 -> Co2 * outcome unit :=
  commit_write (fun m => set_docs (map (persist_in cat nm n q) (coll_co2 m)) m).

(** Modelled from the spec: [insert_session(total_co2, equivalents,
    exchanged_items)] writes one Session Record. *)
Definition insert_session (t : Qc) (eq : Equivalents) (exc : ExcItems)
  : Co2 -> Co2 * outcome unit :=
  commit_write (fun m =>
    mkCo2 (coll_co2 m) (coll_sessions m ++ [mkSession t eq exc]) (coll_logs m) (faults m)).

(** Modelled from the spec: [get_updated_items()] returns the persisted
    item records. *)
Definition get_updated_items (m : Co2) : list Category := coll_co2 m.

(** Modelled from the spec: [get_all_sessions()] returns the Session Ledger. *)
Definition get_all_sessions (m : Co2) : list Session := coll_sessions m.

(** Modelled from the spec: [clear_sessions()] deletes all Session Records. *)
Definition clear_sessions (m : Co2) : Co2 :=
  mkCo2 (coll_co2 m) [] (coll_logs m) (faults m).

(** Modelled from the spec: an item record with its count reset. *)
Definition zero_item (item : Item) : Item :=
  mkItem (name item) 0 0%Qc (base_co2 item).

(** Modelled from the spec: [reset_counts(categories)] resets the persisted
    item counts to 0. *)
Definition reset_counts (categories : list Category) (m : Co2) : Co2 :=
  set_docs (map (fun c => set_cat_items c (map zero_item (cat_items c))) (coll_co2 m)) m.

(** Modelled from the spec: [log_out(user_name, sessions, sorted_items,
    total)] appends one Logout Archive Entry. *)
Definition log_out (user : option string) (n : Z) (sorted : list Item) (t : Totals)
  (m : Co2) : Co2 :=
  mkCo2 (coll_co2 m) (coll_sessions m) (coll_logs m ++ [mkLogoutEntry user n sorted t])
        (faults m).

End Co2Ops.

(** ** [AppUtils]

    The class [AppUtils] is imported from [utilities/utils.py]; [main.py]
    shows its calls only. *)
Module AppUtils.

(** Modelled from the spec: the all-zero equivalents (section 4.2). *)
Definition zero_equivalents : Equivalents := mkEquivalents 0%Qc 0%Qc 0%Qc.

(** Modelled from the spec: cumulative totals add mode by mode. *)
Definition add_equivalents (a b : Equivalents) : Equivalents :=
  mkEquivalents (car a + car b)%Qc (bus a + bus b)%Qc (plane a + plane b)%Qc.

(** Modelled from the spec: one step of the fold of [calculate_total]. *)
Definition add_session (acc : Totals * Z) (s : Session) : Totals * Z :=
  (mkTotals (totals_co2 (fst acc) + session_total_co2 s)%Qc
            (add_equivalents (totals_equivalents (fst acc)) (session_equivalents s)),
   snd acc + 1).

(** Modelled from the spec: [calculate_total(sessions)] folds the Session
    Records into cumulative totals and a session count. *)
Definition calculate_total (l : list Session) : Totals * Z :=
  fold_left add_session l (mkTotals 0%Qc zero_equivalents, 0).

(** Modelled from the spec: [rearrange_updated_items] flattens the
    per-category lists into one sequence. *)
Definition rearrange_updated_items (docs : list Category) : list Item :=
  concat (map cat_items docs).

(** Modelled from the spec: insertion into a list sorted by count,
    descending, before the first item whose count is not greater. *)
Fixpoint insert_by_count (x : Item) (l : list Item) : list Item :=
  match l with
  | [] => [x]
  | y :: ys => if bool_decide (count x < count y) then y :: insert_by_count x ys
               else x :: y :: ys
  end.

(** Modelled from the spec: [sort_updated_items] sorts by count, descending,
    ties in input order. *)
Definition sort_updated_items (l : list Item) : list Item :=
  foldr insert_by_count [] l.

(** Modelled from the spec: [calculate_equivalents(total_co2)] divides the
    total by fixed conversion factors, here parameters. *)
Definition equivalents_by (car_factor bus_factor plane_factor : Qc) (t : Qc)
  : Equivalents :=
  mkEquivalents (t / car_factor)%Qc (t / bus_factor)%Qc (t / plane_factor)%Qc.

End AppUtils.

(** ** The process state and the handler monad *)

(** The module-level names of [main.py] that handlers read and write, and
    the standard output [print] writes to.  [total_co2] is [None] until an
    assignment binds the name. *)
Record World := mkWorld {
  items : list Category;
  total_co2 : option Qc;
  mongo : Co2;
  stdout : list string
}.

Definition set_items (l : list Category) (w : World) : World :=
  mkWorld l (total_co2 w) (mongo w) (stdout w).

Definition set_total_co2 (t : Qc) (w : World) : World :=
  mkWorld (items w) (Some t) (mongo w) (stdout w).

Definition set_mongo (m : Co2) (w : World) : World :=
  mkWorld (items w) (total_co2 w) m (stdout w).

(** A computation on the world: the world after it, and a value or a raised
    exception. *)
Definition Py (A : Type) : Type := World -> World * outcome A.

Definition ret {A} (a : A) : Py A := fun w => (w, Return a).

Definition raise {A} (e : exn) : Py A := fun w => (w, Raise e).

Definition bind {A B} (m : Py A) (k : A -> Py B) : Py B :=
  fun w =>
    match m w with
    | (w', Return a) => k a w'
    | (w', Raise e) => (w', Raise e)
    end.

(** [try: body / except Exception as e: handler e]. *)
Definition try_except {A} (body : Py A) (handler : exn -> Py A) : Py A :=
  fun w =>
    match body w with
    | (w', Return a) => (w', Return a)
    | (w', Raise e) => handler e w'
    end.

Declare Scope py_scope.
Delimit Scope py_scope with py.
Notation "x <- m ;; k" := (bind m (fun x => k))
  (at level 100, m at next level, right associativity) : py_scope.
Notation "m ;; k" := (bind m (fun _ => k))
  (at level 100, right associativity) : py_scope.

Definition get_items : Py (list Category) := fun w => (w, Return (items w)).

Definition put_items (l : list Category) : Py unit :=
  fun w => (set_items l w, Return tt).

(** Reading the global [total_co2]: a [NameError] while the name is unbound. *)
Definition read_total_co2 : Py Qc :=
  fun w =>
    match total_co2 w with
    | Some t => (w, Return t)
    | None => (w, Raise (NameError "total_co2"))
    end.

Definition assign_total_co2 (t : Qc) : Py unit :=
  fun w => (set_total_co2 t w, Return tt).

(** Calling a method of [mongo] that may raise. *)
Definition call_mongo {A} (op : Co2 -> Co2 * outcome A) : Py A :=
  fun w => let r := op (mongo w) in (set_mongo (fst r) w, snd r).

(** Calling a method of [mongo] that writes and returns nothing. *)
Definition write_mongo (op : Co2 -> Co2) : Py unit :=
  fun w => (set_mongo (op (mongo w)) w, Return tt).

(** Calling a method of [mongo] that only reads. *)
Definition read_mongo {A} (op : Co2 -> A) : Py A :=
  fun w => (w, Return (op (mongo w))).

Definition print (s : string) : Py unit :=
  fun w => (mkWorld (items w) (total_co2 w) (mongo w) (stdout w ++ [s]), Return tt).

(** ** Requests and responses *)

Record Request := mkRequest {
  cookies : list (string * string)
}.

(** [request.cookies.get(key)]. *)
Fixpoint cookies_get (key : string) (l : list (string * string)) : option string :=
  match l with
  | [] => None
  | (k, v) :: rest => if decide (k = key) then Some v else cookies_get key rest
  end.

(** The template context of the two pages; the demo page leaves the last
    four entries out. *)
Record PageContext := mkContext {
  ctx_items : list Category;
  ctx_equivalents : Equivalents;
  ctx_total_co2 : Qc;
  ctx_totals : option Totals;
  ctx_session_count : option Z;
  ctx_sorted_items : option (list Item);
  ctx_welcome_message : option (option string)
}.

Inductive Response :=
  | TemplateResponse (template : string) (context : PageContext) (deleted : list string)
  | RedirectResponse (url : string) (status_code : Z) (deleted : list string).

(** Equality of the data of the model is decidable. *)
#[global] Instance exn_eq_dec : EqDecision exn.
Proof. solve_decision. Defined.
#[global] Instance outcome_eq_dec {A} `{EqDecision A} : EqDecision (outcome A).
Proof. solve_decision. Defined.
#[global] Instance ExcItem_eq_dec : EqDecision ExcItem.
Proof. solve_decision. Defined.
#[global] Instance Equivalents_eq_dec : EqDecision Equivalents.
Proof. solve_decision. Defined.
#[global] Instance Session_eq_dec : EqDecision Session.
Proof. unfold ExcItems. solve_decision. Defined.
#[global] Instance Totals_eq_dec : EqDecision Totals.
Proof. solve_decision. Defined.
#[global] Instance LogoutEntry_eq_dec : EqDecision LogoutEntry.
Proof. solve_decision. Defined.
#[global] Instance Co2_eq_dec : EqDecision Co2.
Proof. solve_decision. Defined.
#[global] Instance World_eq_dec : EqDecision World.
Proof. solve_decision. Defined.
#[global] Instance PageContext_eq_dec : EqDecision PageContext.
Proof. solve_decision. Defined.
#[global] Instance Response_eq_dec : EqDecision Response.
Proof. solve_decision. Defined.

(** [sum(item.get('co2', 0) for category in items for item in
    category['items'])]. *)
Definition sum_co2 (l : list Category) : Qc :=
  fold_left (fun acc c => fold_left (fun acc' item => (acc' + co2 item)%Qc) (cat_items c) acc)
            l 0%Qc.

(** Lines 79-82 and 173-176: both [renew] handlers reset every item. *)
Definition reset_item (item : Item) : Item := set_co2 (set_count item 0) 0%Qc.

Local Open Scope py_scope.

(** ** Demo page routes (lines 33-84) *)
Module Demo.

(** [GET /]: the total is a local variable of the handler. *)
Definition demo (calculate_equivalents : Qc -> Equivalents) (request : Request)
  : Py Response :=
  its <- get_items ;;
  let total := sum_co2 its in
  let equivalents := calculate_equivalents total in
  ret (TemplateResponse "demo.html"
         (mkContext its equivalents total None None None None) []).

(** Lines 63-69, run on the item whose name matched. *)
Definition on_match (action : string) (item : Item) : Item :=
  let item1 :=
    if decide (action = "increment") then set_count item (count item + 1)
    else if decide (action = "decrement") then set_count item (Z.max 0 (count item - 1))
    else item in
  set_co2 item1 (Qc_of_Z (count item1) * base_co2 item1)%Qc.

(** The inner loop, lines 60-70: [break] ends it at the first match. *)
Fixpoint scan_items (action item_name : string) (l : list Item) : list Item :=
  match l with
  | [] => []
  | item :: rest =>
      if decide (name item = item_name) then on_match action item :: rest
      else item :: scan_items action item_name rest
  end.

(** The outer loop, line 59: it visits every category, the [break] of the
    inner loop does not end it. *)
Fixpoint scan_categories (action item_name : string) (l : list Category)
  : list Category :=
  match l with
  | [] => []
  | c :: rest =>
      set_cat_items c (scan_items action item_name (cat_items c))
      :: scan_categories action item_name rest
  end.

(** [POST /]. *)
Definition update_count (request : Request) (action item_name : string)
  : Py Response :=
  its <- get_items ;;
  put_items (scan_categories action item_name its) ;;
  ret (RedirectResponse "/" 303 []).

(** [POST /reset]. *)
Definition renew (request : Request) : Py Response :=
  its <- get_items ;;
  put_items (map (fun c => set_cat_items c (map reset_item (cat_items c))) its) ;;
  ret (RedirectResponse "/" 303 []).

End Demo.

(** ** Main page routes (lines 86-218) *)
Module Main.

(** A non-empty cookie value is truthy. *)
Definition truthy (v : option string) : bool :=
  match v with
  | Some (String _ _) => true
  | _ => false
  end.

(** [GET /main]: the only assignment to the global [total_co2]. *)
Definition main (calculate_equivalents : Qc -> Equivalents) (request : Request)
  : Py Response :=
  let welcome_message := cookies_get "welcome_message" (cookies request) in
  its <- get_items ;;
  assign_total_co2 (sum_co2 its) ;;
  t <- read_total_co2 ;;
  let equivalents := calculate_equivalents t in
  all_sessions <- read_mongo Co2Ops.get_all_sessions ;;
  let totals_count := AppUtils.calculate_total all_sessions in
  updated_items <- read_mongo Co2Ops.get_updated_items ;;
  let rearranged_items := AppUtils.rearrange_updated_items updated_items in
  let sorted := AppUtils.sort_updated_items rearranged_items in
  its' <- get_items ;;
  ret (TemplateResponse "main.html"
         (mkContext its' equivalents t (Some (fst totals_count))
            (Some (snd totals_count)) (Some sorted) (Some welcome_message))
         (if truthy welcome_message then ["welcome_message"] else [])).

(** Lines 133-139, run on the item whose name matched. *)
Definition on_match (action : string) (item : Item) : Item :=
  let item1 :=
    if decide (action = "increment") then set_count item (count item + 1)
    else if decide (action = "decrement") then set_count item (Z.max 0 (count item - 1))
    else item in
  set_co2 item1 (Qc_of_Z (count item1) * base_co2 item1)%Qc.

(** The inner loop, lines 130-140: [break] ends it at the first match. *)
Fixpoint scan_items (action item_name : string) (l : list Item) : list Item :=
  match l with
  | [] => []
  | item :: rest =>
      if decide (name item = item_name) then on_match action item :: rest
      else item :: scan_items action item_name rest
  end.

(** The outer loop, line 129: it visits every category, the [break] of the
    inner loop does not end it. *)
Fixpoint scan_categories (action item_name : string) (l : list Category)
  : list Category :=
  match l with
  | [] => []
  | c :: rest =>
      set_cat_items c (scan_items action item_name (cat_items c))
      :: scan_categories action item_name rest
  end.

(** [POST /main]. *)
Definition update_count (request : Request) (action item_name : string)
  : Py Response :=
  its <- get_items ;;
  put_items (scan_categories action item_name its) ;;
  ret (RedirectResponse "/main" 303 []).

(** Lines 159-166: make sure the category has a list, then append to it. *)
Fixpoint exc_append (cat : string) (e : ExcItem) (exc : ExcItems) : ExcItems :=
  match exc with
  | [] => [(cat, [e])]
  | (k, l) :: rest =>
      if decide (k = cat) then (k, (l ++ [e])%list) :: rest
      else (k, l) :: exc_append cat e rest
  end.

(** Line 155: [item.get('count', 0) > 0 or item.get('co2', 0) > 0]. *)
Definition exchanged (item : Item) : bool :=
  bool_decide (0 < count item) || bool_decide (0 < co2 item)%Qc.

(** The inner loop of the commit, lines 154-166. *)
Fixpoint save_items (cat : string) (l : list Item) (exc : ExcItems) : Py ExcItems :=
  match l with
  | [] => ret exc
  | item :: rest =>
      if exchanged item then
        call_mongo (Co2Ops.update_item cat (name item) (count item) (co2 item)) ;;
        save_items cat rest
          (exc_append cat (mkExcItem (name item) (count item) (co2 item)) exc)
      else save_items cat rest exc
  end.

(** The outer loop of the commit, line 153. *)
Fixpoint save_categories (l : list Category) (exc : ExcItems) : Py ExcItems :=
  match l with
  | [] => ret exc
  | c :: rest =>
      exc' <- save_items (category c) (cat_items c) exc ;;
      save_categories rest exc'
  end.

(** The [try] block of [renew], lines 150-176. *)
Definition renew_body (calculate_equivalents : Qc -> Equivalents) : Py unit :=
  its <- get_items ;;
  exc_items <- save_categories its [] ;;
  t <- read_total_co2 ;;
  (if bool_decide (0 < t)%Qc then
     let equivalents := calculate_equivalents t in
     call_mongo (Co2Ops.insert_session t equivalents exc_items)
   else ret tt) ;;
  its' <- get_items ;;
  put_items (map (fun c => set_cat_items c (map reset_item (cat_items c))) its').

(** [POST /main/reset], the commit. *)
Definition renew (calculate_equivalents : Qc -> Equivalents) (request : Request)
  : Py Response :=
  try_except (renew_body calculate_equivalents)
    (fun e => print ("Error in /reset: " ++ str e) ;; raise e) ;;
  ret (RedirectResponse "/main" 303 []).

(** [POST /main/logout]. *)
Definition logout (request : Request) : Py Response :=
  let user := cookies_get "user_name" (cookies request) in
  all_sessions <- read_mongo Co2Ops.get_all_sessions ;;
  let totals_count := AppUtils.calculate_total all_sessions in
  (if bool_decide (0 < snd totals_count) then
     updated_items <- read_mongo Co2Ops.get_updated_items ;;
     let rearranged_items := AppUtils.rearrange_updated_items updated_items in
     let sorted := AppUtils.sort_updated_items rearranged_items in
     write_mongo (Co2Ops.log_out user (snd totals_count) sorted (fst totals_count)) ;;
     its <- get_items ;;
     write_mongo (Co2Ops.reset_counts its) ;;
     write_mongo Co2Ops.clear_sessions
   else ret tt) ;;
  ret (RedirectResponse "/" 303 ["user_name"]).

(** [GET /main/reset_DBS]. *)
Definition reset_count (request : Request) : Py Response :=
  its <- get_items ;;
  write_mongo (Co2Ops.reset_counts its) ;;
  ret (RedirectResponse "/main" 303 []).

(** [GET /main/clear_SOS]. *)
Definition clear_sessions (request : Request) : Py Response :=
  write_mongo Co2Ops.clear_sessions ;;
  ret (RedirectResponse "/main" 303 []).

End Main.

(** ** The application: start-up and routing *)

(** Lines 26-31: the table is loaded from the catalog, the store is seeded
    when it holds no document, and [total_co2] is not yet bound. *)
Definition startup (catalog : list Category) (m : Co2) : World :=
  mkWorld catalog None
    (if decide (Co2Ops.count_documents m = 0) then Co2Ops.insert_items catalog m else m)
    [].

Inductive Route :=
  | GET_root
  | POST_root (action item_name : string)
  | POST_reset
  | GET_main
  | POST_main (action item_name : string)
  | POST_main_reset
  | POST_main_logout
  | GET_main_reset_DBS
  | GET_main_clear_SOS.

Definition dispatch (calculate_equivalents : Qc -> Equivalents)
  (route : Route) (request : Request) : Py Response :=
  match route with
  | GET_root => Demo.demo calculate_equivalents request
  | POST_root action item_name => Demo.update_count request action item_name
  | POST_reset => Demo.renew request
  | GET_main => Main.main calculate_equivalents request
  | POST_main action item_name => Main.update_count request action item_name
  | POST_main_reset => Main.renew calculate_equivalents request
  | POST_main_logout => Main.logout request
  | GET_main_reset_DBS => Main.reset_count request
  | GET_main_clear_SOS => Main.clear_sessions request
  end.

(** Serving a sequence of requests: a request that raises fails alone, the
    process and its state live on. *)
Definition serve (calculate_equivalents : Qc -> Equivalents)
  (l : list (Route * Request)) (w : World) : World :=
  fold_left (fun w' rr => fst (dispatch calculate_equivalents (fst rr) (snd rr) w')) l w.

(** ** Properties of the state *)

(** The invariant of an item: [co2 == count * base_co2]. *)
Definition item_inv (item : Item) : Prop :=
  co2 item = (Qc_of_Z (count item) * base_co2 item)%Qc.

Definition table_inv (l : list Category) : Prop :=
  Forall (fun c => Forall item_inv (cat_items c)) l.

(** Every count of the table is a non-negative integer. *)
Definition table_nonneg (l : list Category) : Prop :=
  Forall (fun c => Forall (fun item => 0 <= count item) (cat_items c)) l.

(** A relation that holds item by item between two tables of one shape. *)
Definition table_rel (R : Item -> Item -> Prop) (l l' : list Category) : Prop :=
  Forall2 (fun c c' => category c' = category c /\ Forall2 R (cat_items c) (cat_items c')) l l'.

(** What a decrement of [item_name] does to one item: nothing, or the
    update of a matching item, whose count is then not negative. *)
Definition decremented (item_name : string) (item item' : Item) : Prop :=
  (item' = item \/
   (name item = item_name /\ count item' = Z.max 0 (count item - 1) /\ 0 <= count item'))
  /\ (count item = 0 -> count item' = 0).

#[global] Instance item_inv_dec item : Decision (item_inv item).
Proof. unfold item_inv. apply _. Defined.

#[global] Instance table_inv_dec l : Decision (table_inv l).
Proof. unfold table_inv. apply _. Defined.

#[global] Instance table_nonneg_dec l : Decision (table_nonneg l).
Proof. unfold table_nonneg. apply _. Defined.

(** The writes the commit makes to the item records, in loop order: the
    exchanged items, each with the name of its category. *)
Fixpoint pending_items (cat : string) (l : list Item) : list (string * Item) :=
  match l with
  | [] => []
  | item :: rest =>
      if Main.exchanged item then (cat, item) :: pending_items cat rest
      else pending_items cat rest
  end.

Fixpoint pending (l : list Category) : list (string * Item) :=
  match l with
  | [] => []
  | c :: rest => (pending_items (category c) (cat_items c) ++ pending rest)%list
  end.

(** The item records after the writes [ws] went through. *)
Definition persisted (ws : list (string * Item)) (docs : list Category) : list Category :=
  fold_left
    (fun d ci => map (Co2Ops.persist_in (fst ci) (name (snd ci)) (count (snd ci)) (co2 (snd ci))) d)
    ws docs.

(** The dict [exc_items] after the writes [ws] went through. *)
Definition collected (ws : list (string * Item)) (exc : ExcItems) : ExcItems :=
  fold_left
    (fun e ci => Main.exc_append (fst ci)
                   (mkExcItem (name (snd ci)) (count (snd ci)) (co2 (snd ci))) e)
    ws exc.

(** The number of store writes a commit attempts when none fails: one per
    exchanged item, and the Session Record when the global total is
    positive. *)
Definition commit_writes (w : World) : nat :=
  length (pending (items w)) +
  match total_co2 w with
  | Some t => if bool_decide (0 < t)%Qc then 1 else 0
  | None => 0
  end.

Definition Qc_sum (l : list Qc) : Qc := foldr Qcplus 0%Qc l.

(** The store writes of the commit loops, as one loop over [pending]. *)
Fixpoint run_writes (ws : list (string * Item)) (exc : ExcItems) : Py ExcItems :=
  match ws with
  | [] => ret exc
  | ci :: rest =>
      call_mongo (Co2Ops.update_item (fst ci) (name (snd ci)) (count (snd ci)) (co2 (snd ci))) ;;
      run_writes rest
        (Main.exc_append (fst ci) (mkExcItem (name (snd ci)) (count (snd ci)) (co2 (snd ci))) exc)
  end.

(** The world once the writes [ws] went through and the tape is [tape]. *)
Definition after_writes (ws : list (string * Item)) (tape : list (option string))
  (w : World) : World :=
  set_mongo
    (mkCo2 (persisted ws (coll_co2 (mongo w))) (coll_sessions (mongo w))
       (coll_logs (mongo w)) tape)
    w.

Definition reset_table (l : list Category) : list Category :=
  map (fun c => set_cat_items c (map reset_item (cat_items c))) l.

(** The first [n] entries of the tape let their writes succeed. *)
Definition no_fault (n : nat) (tape : list (option string)) : Prop :=
  Forall (fun f => f = None) (take n tape).

#[global] Instance no_fault_dec n tape : Decision (no_fault n tape).
Proof. unfold no_fault. apply _. Defined.

(** ** Views of the table and of the dict [exc_items] *)

(** What the table holds besides counts and co2: the category names and,
    per category, the names and the [base_co2] of its items, in order. *)
Definition shape (l : list Category) : list (string * list (string * Qc)) :=
  map (fun c => (category c, map (fun item => (name item, base_co2 item)) (cat_items c))) l.

(** The items of the table in the order of the two nested loops. *)
Definition all_items (l : list Category) : list Item := concat (map cat_items l).



(** Applying [f] to the first item of that name and to no other. *)
Fixpoint update_first (f : Item -> Item) (item_name : string) (l : list Item) : list Item :=
  match l with
  | [] => []
  | item :: rest =>
      if decide (name item = item_name) then f item :: rest
      else item :: update_first f item_name rest
  end.

(** An item with the count [n] and the co2 that goes with it. *)
Definition recount (n : Z) (item : Item) : Item :=
  mkItem (name item) n (Qc_of_Z n * base_co2 item)%Qc (base_co2 item).

(** [exc_items.get(cat)]. *)
Fixpoint exc_get (cat : string) (exc : ExcItems) : option (list ExcItem) :=
  match exc with
  | [] => None
  | (k, l) :: rest => if decide (k = cat) then Some l else exc_get cat rest
  end.

(** What a lookup finds after [add] was appended under the key. *)
Definition exc_extend (found : option (list ExcItem)) (add : list ExcItem)
  : option (list ExcItem) :=
  match add with
  | [] => found
  | _ => Some (default [] found ++ add)%list
  end.

(** The entry lines 162-166 build for an item. *)
Definition to_exc (item : Item) : ExcItem :=
  mkExcItem (name item) (count item) (co2 item).

(** The entries of the exchanged items of the categories named [cat], in
    table order. *)
Fixpoint exchanged_in (cat : string) (l : list Category) : list ExcItem :=
  match l with
  | [] => []
  | c :: rest =>
      ((if decide (category c = cat)
        then map to_exc (List.filter Main.exchanged (cat_items c))
        else []) ++ exchanged_in cat rest)%list
  end.

(** The routes whose handlers call no method of [mongo] that writes. *)
Definition calls_no_write (route : Route) : bool :=
  match route with
  | GET_root | POST_root _ _ | POST_reset | GET_main | POST_main _ _ => true
  | POST_main_reset | POST_main_logout | GET_main_reset_DBS | GET_main_clear_SOS => false
  end.

(** ** Sample data *)
Module Sample.

Definition calc : Qc -> Equivalents :=
  AppUtils.equivalents_by (Qc_of_Z 2) (Qc_of_Z 3) (Qc_of_Z 4).

Definition rq : Request := mkRequest [("user_name", "Ada")].

Definition item_a : Item := mkItem "A" 3 (Qc_of_Z 6) (Qc_of_Z 2).
Definition item_b : Item := mkItem "B" 1 (Qc_of_Z 5) (Qc_of_Z 5).
Definition item_c : Item := mkItem "C" 0 (Qc_of_Z 0) (Qc_of_Z 7).

Definition table : list Category :=
  [mkCategory "Kitchen" [item_a; item_c]; mkCategory "Office" [item_b]].

Definition empty_store : Co2 := mkCo2 [] [] [] [].

(** The application just started on [table] with an empty store. *)
Definition started : World := startup table empty_store.

(** A world whose global total was computed by a page load. *)
Definition loaded : World := serve calc [(GET_main, rq)] started.

(** The same, with a store whose second write will fail. *)
Definition failing : World :=
  set_mongo (mkCo2 (reset_table table) [] [] [None; Some "connection lost"]) loaded.

(** Two categories that each hold an item named Cup. *)
Definition cup (base : Z) : Item := mkItem "Cup" 0 (Qc_of_Z 0) (Qc_of_Z base).

Definition two_cups : World :=
  startup [mkCategory "Kitchen" [cup 2]; mkCategory "Office" [cup 3]] empty_store.

(** A world with two Session Records in the ledger. *)
Definition two_sessions : World :=
  serve calc
    [(GET_main, rq); (POST_main_reset, rq); (POST_main "increment" "C", rq);
     (GET_main, rq); (POST_main_reset, rq)]
    started.

(** A page load, a commit, and no page load since: every item is back at
    0 and the global total still holds what the page load computed. *)
Definition committed : World :=
  serve calc [(GET_main, rq); (POST_main_reset, rq)] started.

(** A page load of the main page at an all-zero table, then an increment
    through the demo page. *)
Definition demo_increment : World :=
  serve calc [(GET_main, rq); (POST_root "increment" "Cup", rq)]
    (startup [mkCategory "Kitchen" [cup 2]] empty_store).

(** Requests served before any load of the main page. *)
Definition early_trace : list (Route * Request) :=
  [(GET_root, rq); (POST_root "increment" "C", rq); (POST_main "decrement" "B", rq)].

(** A table in which the invariant holds and every count is non-negative. *)
Definition tidy : World :=
  startup
    [mkCategory "Kitchen" [mkItem "A" 3 (Qc_of_Z 3 * Qc_of_Z 2)%Qc (Qc_of_Z 2); cup 2];
     mkCategory "Office" [cup 3]]
    empty_store.

(** The result of the loops of the commit on [table]. *)
Definition saved : World * outcome ExcItems := Main.save_categories table [] loaded.

Definition saved_exc : ExcItems :=
  [("Kitchen", [mkExcItem "A" 3 (Qc_of_Z 6)]); ("Office", [mkExcItem "B" 1 (Qc_of_Z 5)])].

(** Requests whose handlers write nothing to the store. *)
Definition quiet_trace : list (Route * Request) :=
  [(POST_main "increment" "C", rq); (GET_main, rq); (POST_reset, rq); (GET_root, rq)].

End Sample.

(** ** The two [update_count] handlers *)

Lemma on_match_agree action item : Demo.on_match action item = Main.on_match action item.
Proof. unfold Demo.on_match, Main.on_match. repeat case_decide; reflexivity. Qed.

Lemma scan_items_agree action item_name l :
  Demo.scan_items action item_name l = Main.scan_items action item_name l.
Proof.
  induction l as [|item rest IH]; simpl; [reflexivity|].
  case_decide; [by rewrite on_match_agree | by rewrite IH].
Qed.

Lemma scan_categories_agree action item_name l :
  Demo.scan_categories action item_name l = Main.scan_categories action item_name l.
Proof.
  induction l as [|c rest IH]; simpl; [reflexivity|].
  by rewrite scan_items_agree, IH.
Qed.

(** C10: the handlers of [POST /] and [POST /main] make the same change to
    the world for every action and item name, and differ in the redirect
    target alone. *)
Theorem update_count_demo_main_agree request action item_name w :
  fst (Demo.update_count request action item_name w)
  = fst (Main.update_count request action item_name w)
  /\ snd (Demo.update_count request action item_name w)
     = Return (RedirectResponse "/" 303 [])
  /\ snd (Main.update_count request action item_name w)
     = Return (RedirectResponse "/main" 303 []).
Proof.
  unfold Demo.update_count, Main.update_count, bind, get_items, put_items, ret; simpl.
  by rewrite scan_categories_agree.
Qed.

(** ** Increment and decrement *)

Lemma on_match_name action item : name (Main.on_match action item) = name item.
Proof. unfold Main.on_match. repeat case_decide; reflexivity. Qed.

Lemma on_match_decrement_count item :
  count (Main.on_match "decrement" item) = Z.max 0 (count item - 1).
Proof. reflexivity. Qed.

Lemma on_match_increment_count item :
  count (Main.on_match "increment" item) = count item + 1.
Proof. reflexivity. Qed.

Lemma decremented_refl item_name item : decremented item_name item item.
Proof. split; [by left|done]. Qed.

Lemma scan_items_decremented item_name l :
  Forall2 (decremented item_name) l (Main.scan_items "decrement" item_name l).
Proof.
  induction l as [|item rest IH]; simpl; [constructor|].
  case_decide as Hname.
  - constructor.
    + unfold decremented.
      change (count (Main.on_match "decrement" item)) with (Z.max 0 (count item - 1)).
      split; [right; repeat split; [done|lia]|lia].
    + apply Forall_Forall2_diag, Forall_true. intros i. apply decremented_refl.
  - constructor; [apply decremented_refl|exact IH].
Qed.

Lemma scan_categories_decremented item_name l :
  table_rel (decremented item_name) l (Main.scan_categories "decrement" item_name l).
Proof.
  induction l as [|c rest IH]; simpl; constructor; [|exact IH].
  split; [reflexivity|]. simpl. apply scan_items_decremented.
Qed.

(** C6: a decrement, through [POST /] or [POST /main], leaves every item
    either as it was or, when it is a matching item, with the count
    [max(0, count - 1)], which is not negative; and a count of 0 stays 0.
    The same holds of the update taken alone, on any item. *)
Theorem decrement_never_negative request item_name w item :
  table_rel (decremented item_name) (items w)
    (items (fst (Main.update_count request "decrement" item_name w)))
  /\ table_rel (decremented item_name) (items w)
       (items (fst (Demo.update_count request "decrement" item_name w)))
  /\ 0 <= count (Main.on_match "decrement" item)
  /\ 0 <= count (Demo.on_match "decrement" item)
  /\ (count item = 0 -> count (Main.on_match "decrement" item) = 0)
  /\ (count item = 0 -> count (Demo.on_match "decrement" item) = 0).
Proof.
  change (count (Demo.on_match "decrement" item)) with (Z.max 0 (count item - 1)).
  change (count (Main.on_match "decrement" item)) with (Z.max 0 (count item - 1)).
  unfold Demo.update_count, Main.update_count, bind, get_items, put_items, ret,
    set_items; cbn [fst items].
  split; [apply scan_categories_decremented|].
  split; [rewrite scan_categories_agree; apply scan_categories_decremented|].
  repeat split; lia.
Qed.

Lemma on_match_round_trip item :
  item_inv item -> 0 <= count item ->
  Main.on_match "decrement" (Main.on_match "increment" item) = item.
Proof.
  destruct item as [nm n q b]. unfold item_inv, Main.on_match; simpl.
  intros -> Hn. by replace (Z.max 0 (n + 1 - 1)) with n by lia.
Qed.

Lemma scan_items_round_trip item_name l :
  Forall item_inv l -> Forall (fun item => 0 <= count item) l ->
  Main.scan_items "decrement" item_name (Main.scan_items "increment" item_name l) = l.
Proof.
  induction l as [|item rest IH]; intros Hinv Hpos; [reflexivity|].
  inversion Hinv; inversion Hpos; subst. cbn [Main.scan_items].
  case_decide as Hname; cbn [Main.scan_items].
  - rewrite on_match_name, decide_True by done.
    by rewrite on_match_round_trip.
  - rewrite decide_False by done. by rewrite IH.
Qed.

Lemma scan_categories_round_trip item_name l :
  table_inv l -> table_nonneg l ->
  Main.scan_categories "decrement" item_name (Main.scan_categories "increment" item_name l)
  = l.
Proof.
  induction l as [|c rest IH]; intros Hinv Hpos; [reflexivity|].
  inversion Hinv; inversion Hpos; subst. simpl.
  rewrite scan_items_round_trip, IH by done. by destruct c.
Qed.

(** C7: in a state where the invariant holds (and, as the data model has
    it, no count is negative), an increment of a name followed by a
    decrement of the same name gives back the world it started from: the
    count and co2 of the named item are those before the increment, and
    every other item is unchanged. *)
Theorem increment_then_decrement request item_name w :
  table_inv (items w) ->
  table_nonneg (items w) ->
  fst (Main.update_count request "decrement" item_name
         (fst (Main.update_count request "increment" item_name w)))
  = w.
Proof.
  intros Hinv Hpos.
  unfold Main.update_count, bind, get_items, put_items, ret, set_items; simpl.
  rewrite scan_categories_round_trip by done. by destruct w.
Qed.

Lemma increment_then_decrement_witness :
  table_inv (items Sample.tidy)
  /\ table_nonneg (items Sample.tidy)
  /\ fst (Main.update_count Sample.rq "decrement" "Cup"
            (fst (Main.update_count Sample.rq "increment" "Cup" Sample.tidy)))
     = Sample.tidy.
Proof.
  assert (table_inv (items Sample.tidy)) as Hinv
    by (apply (bool_decide_unpack _); vm_compute; exact I).
  assert (table_nonneg (items Sample.tidy)) as Hpos
    by (apply (bool_decide_unpack _); vm_compute; exact I).
  split; [exact Hinv|]. split; [exact Hpos|].
  exact (increment_then_decrement Sample.rq "Cup" Sample.tidy Hinv Hpos).
Defined.

(** C8, at two categories that each hold an item named Cup: one increment
    of Cup changes both, the first match of every category and not only the
    first match of the table. *)
Theorem increment_hits_every_category :
  map (fun c => map count (cat_items c)) (items Sample.two_cups) = [[0]; [0]]
  /\ map (fun c => map count (cat_items c))
       (items (fst (Main.update_count Sample.rq "increment" "Cup" Sample.two_cups)))
     = [[1]; [1]].
Proof. split; reflexivity. Qed.

(** A name that no item bears: the table is left as it is. *)
Lemma scan_items_miss action item_name l :
  Forall (fun item => name item <> item_name) l ->
  Main.scan_items action item_name l = l.
Proof.
  induction 1 as [|item rest Hitem Hrest IH]; simpl; [reflexivity|].
  rewrite decide_False by done. by rewrite IH.
Qed.

Lemma update_count_miss request action item_name w :
  Forall (fun c => Forall (fun item => name item <> item_name) (cat_items c)) (items w) ->
  Main.update_count request action item_name w
  = (w, Return (RedirectResponse "/main" 303 [])).
Proof.
  intros Hmiss.
  unfold Main.update_count, bind, get_items, put_items, ret, set_items; simpl.
  assert (Main.scan_categories action item_name (items w) = items w) as ->.
  { induction Hmiss as [|c rest Hc Hrest IH]; simpl; [reflexivity|].
    rewrite scan_items_miss, IH by done. by destruct c. }
  by destruct w.
Qed.

(** Within one category the first match alone is updated. *)
Lemma scan_items_first_match action item_name before item after :
  Forall (fun i => name i <> item_name) before ->
  name item = item_name ->
  Main.scan_items action item_name (before ++ item :: after)
  = (before ++ Main.on_match action item :: after)%list.
Proof.
  intros Hbefore Hitem.
  induction Hbefore as [|i rest Hi Hrest IH]; simpl.
  - by rewrite decide_True.
  - rewrite decide_False by done. by rewrite IH.
Qed.

(** Every category is scanned: the first match of each is updated. *)
Lemma scan_categories_each action item_name l :
  Main.scan_categories action item_name l
  = map (fun c => set_cat_items c (Main.scan_items action item_name (cat_items c))) l.
Proof. induction l as [|c rest IH]; simpl; [reflexivity|by rewrite IH]. Qed.

(** ** The commit loops *)

Lemma save_items_run cat l exc w :
  Main.save_items cat l exc w = run_writes (pending_items cat l) exc w.
Proof.
  revert exc w. induction l as [|item rest IH]; intros exc w; simpl; [reflexivity|].
  destruct (Main.exchanged item); simpl; [|apply IH].
  unfold bind. destruct (call_mongo _ w) as [w1 [[]|e]]; [apply IH|reflexivity].
Qed.

Lemma run_writes_app ws1 ws2 exc w :
  run_writes (ws1 ++ ws2) exc w = bind (run_writes ws1 exc) (run_writes ws2) w.
Proof.
  revert exc w. induction ws1 as [|ci rest IH]; intros exc w; simpl; [reflexivity|].
  unfold bind in *. destruct (call_mongo _ w) as [w1 [[]|e]]; [|reflexivity].
  apply IH.
Qed.

Lemma save_categories_run l exc w :
  Main.save_categories l exc w = run_writes (pending l) exc w.
Proof.
  revert exc w. induction l as [|c rest IH]; intros exc w; simpl; [reflexivity|].
  rewrite run_writes_app. unfold bind. rewrite save_items_run.
  destruct (run_writes _ exc w) as [w1 [exc1|e]]; [apply IH|reflexivity].
Qed.

(** Opening one call of a store method on an explicit world. *)
Ltac step_mongo :=
  unfold bind, call_mongo, Co2Ops.update_item, Co2Ops.insert_session,
    Co2Ops.commit_write; simpl.

(** A write that fails: the writes before it stand, the rest is not tried. *)
Lemma run_writes_fault ws : forall k msg tape exc w,
  faults (mongo w) = (replicate k None ++ Some msg :: tape)%list ->
  (k < length ws)%nat ->
  run_writes ws exc w = (after_writes (take k ws) tape w, Raise (PyMongoError msg)).
Proof.
  induction ws as [|ci rest IH]; intros k msg tape exc w Htape Hk; simpl in Hk; [lia|].
  destruct w as [its tot [docs sess logs tp] out]; simpl in Htape; subst tp.
  destruct k as [|k]; simpl.
  - reflexivity.
  - step_mongo. rewrite (IH k msg tape); [reflexivity|reflexivity|lia].
Qed.

(** Writes that all succeed. *)
Lemma run_writes_ok ws : forall exc w,
  no_fault (length ws) (faults (mongo w)) ->
  run_writes ws exc w
  = (after_writes ws (drop (length ws) (faults (mongo w))) w, Return (collected ws exc)).
Proof.
  induction ws as [|ci rest IH]; intros exc w Hok;
    destruct w as [its tot [docs sess logs tp] out]; simpl in *.
  - reflexivity.
  - step_mongo. destruct tp as [|[msg|] tp]; simpl.
    + rewrite IH; [|unfold no_fault; simpl; by rewrite take_nil].
      unfold after_writes. simpl. by rewrite drop_nil.
    + unfold no_fault in Hok. simpl in Hok. by inversion Hok.
    + rewrite IH; [reflexivity|]. unfold no_fault in *. simpl in *. by inversion Hok.
Qed.

(** Whatever the tape, the loops touch the item records and the tape only. *)
Lemma run_writes_frame ws : forall exc w,
  exists docs tape o,
    run_writes ws exc w
    = (set_mongo (mkCo2 docs (coll_sessions (mongo w)) (coll_logs (mongo w)) tape) w, o).
Proof.
  induction ws as [|ci rest IH]; intros exc w;
    destruct w as [its tot [docs sess logs tp] out]; simpl.
  - by exists docs, tp, (Return exc).
  - step_mongo. destruct tp as [|[msg|] tp]; simpl.
    + edestruct IH as (d & t & o & ->). by exists d, t, o.
    + by eexists _, _, _.
    + edestruct IH as (d & t & o & ->). by exists d, t, o.
Qed.

Lemma no_fault_replicate k n tape :
  (n <= k)%nat -> no_fault n (replicate k None ++ tape)%list.
Proof.
  intros Hn. unfold no_fault. rewrite take_app_le by (by rewrite length_replicate).
  rewrite take_replicate. by apply Forall_replicate.
Qed.

Lemma drop_replicate_app {A} (k : nat) (x : A) (l : list A) :
  drop k (replicate k x ++ l) = l.
Proof. apply drop_app_length'. by rewrite length_replicate. Qed.

Lemma no_fault_le n m tape : (n <= m)%nat -> no_fault m tape -> no_fault n tape.
Proof.
  unfold no_fault. intros Hnm Hm.
  replace (take n tape) with (take n (take m tape))
    by (rewrite take_take; f_equal; lia).
  by apply Forall_take.
Qed.

Lemma no_fault_next n tape msg rest :
  no_fault (S n) tape -> drop n tape <> Some msg :: rest.
Proof.
  unfold no_fault. intros Hok Hdrop.
  assert (tape !! n = Some (Some msg)) as Hn.
  { rewrite <- (Nat.add_0_r n), <- lookup_drop, Hdrop. reflexivity. }
  rewrite (take_S_r _ _ _ Hn) in Hok.
  apply Forall_app in Hok as [_ Hlast]. by inversion Hlast.
Qed.

(** ** The commit, [POST /main/reset] *)

Section Commit.

Variable calculate_equivalents : Qc -> Equivalents.
Variable request : Request.

(** Opening the handler up to the result of its loops. *)
Ltac open_renew :=
  unfold Main.renew, try_except, Main.renew_body, bind, get_items;
  rewrite save_categories_run.

(** Whatever the store does, a commit ends in one of two ways: it raises,
    with the table as it was and one line printed, or it returns, with the
    table reset. *)
Lemma renew_cases w :
  (exists m e,
     Main.renew calculate_equivalents request w
     = (mkWorld (items w) (total_co2 w) m (stdout w ++ ["Error in /reset: " ++ str e]),
        Raise e)
     /\ coll_sessions m = coll_sessions (mongo w)
     /\ coll_logs m = coll_logs (mongo w))
  \/ (exists m,
        Main.renew calculate_equivalents request w
        = (mkWorld (reset_table (items w)) (total_co2 w) m (stdout w),
           Return (RedirectResponse "/main" 303 []))
        /\ coll_logs m = coll_logs (mongo w)).
Proof.
  open_renew.
  destruct (run_writes_frame (pending (items w)) [] w) as (docs & tape & o & ->).
  destruct w as [its tot [docs0 sess logs tp] out]; simpl.
  destruct o as [exc|e]; simpl.
  - unfold read_total_co2; simpl. destruct tot as [t|]; simpl.
    + case_bool_decide; simpl.
      * unfold call_mongo, Co2Ops.insert_session, Co2Ops.commit_write; simpl.
        destruct tape as [|[msg|] tape]; simpl.
        -- right. by eexists.
        -- left. by exists (mkCo2 docs sess logs tape), (PyMongoError msg).
        -- right. by eexists.
      * right. by eexists.
    + left. by exists (mkCo2 docs sess logs tape), (NameError "total_co2").
  - left. by exists (mkCo2 docs sess logs tape), e.
Qed.

(** C2: a commit in which the store write number [k] raises (the writes
    before it having succeeded): the handler prints the error and raises it
    again, the item records keep the [k] writes already made, no Session
    Record is written, and the table [items] is the one the commit started
    with, no count and no co2 reset. *)
Theorem commit_write_failure w k msg tape :
  faults (mongo w) = (replicate k None ++ Some msg :: tape)%list ->
  (k < commit_writes w)%nat ->
  Main.renew calculate_equivalents request w
  = (mkWorld (items w) (total_co2 w)
       (mkCo2 (persisted (take k (pending (items w))) (coll_co2 (mongo w)))
          (coll_sessions (mongo w)) (coll_logs (mongo w)) tape)
       (stdout w ++ ["Error in /reset: " ++ msg]),
     Raise (PyMongoError msg)).
Proof.
  intros Htape Hk. open_renew.
  destruct (decide (k < length (pending (items w)))%nat) as [Hlt|Hge].
  - rewrite (run_writes_fault _ k msg tape) by done.
    by destruct w as [its tot [docs sess logs tp] out].
  - unfold commit_writes in Hk.
    destruct (total_co2 w) as [t|] eqn:Htot; [|lia].
    destruct (bool_decide (0 < t)%Qc) eqn:Hpos; [|lia].
    assert (k = length (pending (items w))) as Hlen by lia.
    rewrite run_writes_ok by (rewrite Htape; apply no_fault_replicate; lia).
    rewrite take_ge by lia.
    rewrite Htape, <- Hlen, drop_replicate_app.
    destruct w as [its tot [docs sess logs tp] out]; simpl in *; subst tot.
    unfold read_total_co2; simpl. rewrite Hpos. reflexivity.
Qed.

(** A commit while [total_co2] is unbound. *)
Lemma renew_unbound w :
  total_co2 w = None ->
  exists w' e,
    Main.renew calculate_equivalents request w = (w', Raise e)
    /\ items w' = items w
    /\ coll_sessions (mongo w') = coll_sessions (mongo w)
    /\ (no_fault (length (pending (items w))) (faults (mongo w)) ->
        e = NameError "total_co2"
        /\ coll_co2 (mongo w') = persisted (pending (items w)) (coll_co2 (mongo w))
        /\ stdout w'
           = (stdout w ++ ["Error in /reset: name 'total_co2' is not defined"])%list).
Proof.
  intros Hnone. open_renew.
  destruct (run_writes (pending (items w)) [] w) as [w1 o] eqn:Hrun.
  destruct (run_writes_frame (pending (items w)) [] w) as (docs & tape & o' & Hframe).
  rewrite Hframe in Hrun. injection Hrun as <- <-.
  destruct o' as [exc|e].
  - unfold read_total_co2. simpl. rewrite Hnone. simpl.
    eexists _, _. split; [reflexivity|]. simpl. repeat split; try done.
    all: rewrite run_writes_ok in Hframe by done; by injection Hframe as <- _.
  - simpl. eexists _, _. split; [reflexivity|]. simpl. repeat split; try done.
    all: rewrite run_writes_ok in Hframe by done; discriminate.
Qed.

(** When the global total is the grand total of the table, as it is right
    after a load of the main page, and no write fails, the commit writes one
    Session Record exactly when that total is positive, and resets the
    table. *)
Lemma commit_after_page_load w :
  total_co2 w = Some (sum_co2 (items w)) ->
  no_fault (commit_writes w) (faults (mongo w)) ->
  items (fst (Main.renew calculate_equivalents request w)) = reset_table (items w)
  /\ coll_sessions (mongo (fst (Main.renew calculate_equivalents request w)))
     = (coll_sessions (mongo w) ++
        if bool_decide (0 < sum_co2 (items w))%Qc
        then [mkSession (sum_co2 (items w)) (calculate_equivalents (sum_co2 (items w)))
                (collected (pending (items w)) [])]
        else [])%list.
Proof.
  intros Htot Hok. unfold commit_writes in Hok. rewrite Htot in Hok.
  open_renew.
  rewrite run_writes_ok by (eapply no_fault_le; [|exact Hok]; lia).
  destruct w as [its tot [docs sess logs tp] out]; simpl in *; subst tot.
  unfold read_total_co2; simpl.
  destruct (bool_decide (0 < sum_co2 its)%Qc) eqn:Hpos; simpl.
  - unfold call_mongo, Co2Ops.insert_session, Co2Ops.commit_write; simpl.
    destruct (drop (length (pending its)) tp) as [|[msg|] rest] eqn:Hdrop; simpl.
    + done.
    + exfalso. eapply (no_fault_next (length (pending its))); [|exact Hdrop].
      by rewrite Nat.add_1_r in Hok.
    + done.
  - by rewrite app_nil_r.
Qed.

End Commit.

Lemma commit_write_failure_witness :
  faults (mongo Sample.failing) = (replicate 1 None ++ Some "connection lost" :: [])%list
  /\ (1 < commit_writes Sample.failing)%nat
  /\ Main.renew Sample.calc Sample.rq Sample.failing
     = (mkWorld (items Sample.failing) (total_co2 Sample.failing)
          (mkCo2
             (persisted (take 1 (pending (items Sample.failing)))
                (coll_co2 (mongo Sample.failing)))
             (coll_sessions (mongo Sample.failing)) (coll_logs (mongo Sample.failing)) [])
          (stdout Sample.failing ++ ["Error in /reset: " ++ "connection lost"]),
        Raise (PyMongoError "connection lost")).
Proof.
  split; [reflexivity|].
  split; [vm_compute; lia|].
  apply (commit_write_failure Sample.calc Sample.rq Sample.failing 1 "connection lost" []).
  - reflexivity.
  - vm_compute; lia.
Defined.

(** The run of the witness, evaluated: the write of A stands, the write of
    B raised, nothing is reset. *)
Example commit_write_failure_run :
  map (fun c => map count (cat_items c))
    (coll_co2 (mongo (fst (Main.renew Sample.calc Sample.rq Sample.failing))))
  = [[3; 0]; [0]]
  /\ map (fun c => map count (cat_items c))
       (items (fst (Main.renew Sample.calc Sample.rq Sample.failing)))
     = [[3; 0]; [1]]
  /\ stdout (fst (Main.renew Sample.calc Sample.rq Sample.failing))
     = ["Error in /reset: connection lost"]
  /\ snd (Main.renew Sample.calc Sample.rq Sample.failing)
     = Raise (PyMongoError "connection lost").
Proof. repeat split; vm_compute; reflexivity. Qed.

(** ** The Session Record of a commit *)

(** C1, at two runs of the application.  First run: a page load, a commit,
    and a second commit with no page load between.  The second commit starts
    with every item at count 0 and co2 0, the grand total is 0, and it
    writes a second Session Record, of total 11 and no exchanged item.
    Second run: a page load at an all-zero table, an increment through the
    demo page, a commit.  The grand total is 2 at the commit and no Session
    Record is written. *)
Theorem commit_reads_stale_total :
  (sum_co2 (items Sample.committed) = 0%Qc
   /\ Forall (fun c => Forall (fun item => count item = 0 /\ co2 item = 0%Qc) (cat_items c))
        (items Sample.committed)
   /\ length (coll_sessions (mongo Sample.committed)) = 1%nat
   /\ coll_sessions (mongo (fst (Main.renew Sample.calc Sample.rq Sample.committed)))
      = (coll_sessions (mongo Sample.committed)
         ++ [mkSession (Qc_of_Z 11) (Sample.calc (Qc_of_Z 11)) []])%list)
  /\ (sum_co2 (items Sample.demo_increment) = Qc_of_Z 2
      /\ coll_sessions (mongo Sample.demo_increment) = []
      /\ Main.renew Sample.calc Sample.rq Sample.demo_increment
         = (set_items (reset_table (items Sample.demo_increment))
              (after_writes (pending (items Sample.demo_increment)) []
                 Sample.demo_increment),
            Return (RedirectResponse "/main" 303 []))
      /\ coll_sessions
           (mongo (fst (Main.renew Sample.calc Sample.rq Sample.demo_increment))) = []).
Proof.
  repeat split; try (apply (bool_decide_unpack _); vm_compute; exact I).
Qed.

(** ** The global [total_co2] *)

Lemma logout_frame request w :
  total_co2 (fst (Main.logout request w)) = total_co2 w
  /\ items (fst (Main.logout request w)) = items w.
Proof.
  unfold Main.logout, bind, read_mongo, write_mongo, get_items, ret; simpl.
  case_bool_decide; done.
Qed.

(** No handler but that of [GET /main] binds or changes [total_co2]. *)
Lemma dispatch_total_co2 calc route request w :
  route <> GET_main ->
  total_co2 (fst (dispatch calc route request w)) = total_co2 w.
Proof.
  intros Hroute. destruct route; try done; simpl.
  - destruct (renew_cases calc request w) as [(m & e & -> & _)|(m & -> & _)]; done.
  - apply logout_frame.
Qed.

Lemma serve_total_co2 calc trace : forall w,
  Forall (fun rr => fst rr <> GET_main) trace ->
  total_co2 (serve calc trace w) = total_co2 w.
Proof.
  induction trace as [|rr rest IH]; intros w Htrace; [reflexivity|].
  inversion Htrace as [|? ? Hrr Hrest]; subst.
  unfold serve in *; simpl. rewrite IH by done. by apply dispatch_total_co2.
Qed.

(** The handler of [GET /main] binds it to the grand total of the table. *)
Lemma main_binds_total_co2 calc request w :
  total_co2 (fst (Main.main calc request w)) = Some (sum_co2 (items w))
  /\ items (fst (Main.main calc request w)) = items w
  /\ mongo (fst (Main.main calc request w)) = mongo w.
Proof. done. Qed.

(** C9: [total_co2] is bound by the handler of [GET /main] alone; after any
    sequence of requests without a [GET /main] since start-up, a commit
    raises, writes no Session Record and leaves the table as it was; when
    the per-item writes succeed they are all made first, and the exception
    is the [NameError] of the unbound name. *)
Theorem commit_before_main_page calc catalog store trace request :
  Forall (fun rr => fst rr <> GET_main) trace ->
  let w := serve calc trace (startup catalog store) in
  total_co2 w = None
  /\ exists w' e,
      Main.renew calc request w = (w', Raise e)
      /\ items w' = items w
      /\ coll_sessions (mongo w') = coll_sessions (mongo w)
      /\ (no_fault (length (pending (items w))) (faults (mongo w)) ->
          e = NameError "total_co2"
          /\ coll_co2 (mongo w') = persisted (pending (items w)) (coll_co2 (mongo w))
          /\ stdout w'
             = (stdout w ++ ["Error in /reset: name 'total_co2' is not defined"])%list).
Proof.
  intros Htrace w.
  assert (total_co2 w = None) as Hnone by (unfold w; by rewrite serve_total_co2).
  split; [exact Hnone|]. by apply renew_unbound.
Qed.

Lemma commit_before_main_page_witness :
  Forall (fun rr => fst rr <> GET_main) Sample.early_trace
  /\ let w := serve Sample.calc Sample.early_trace (startup Sample.table Sample.empty_store) in
     total_co2 w = None
     /\ exists w' e,
         Main.renew Sample.calc Sample.rq w = (w', Raise e)
         /\ items w' = items w
         /\ coll_sessions (mongo w') = coll_sessions (mongo w)
         /\ (no_fault (length (pending (items w))) (faults (mongo w)) ->
             e = NameError "total_co2"
             /\ coll_co2 (mongo w') = persisted (pending (items w)) (coll_co2 (mongo w))
             /\ stdout w'
                = (stdout w ++ ["Error in /reset: name 'total_co2' is not defined"])%list).
Proof.
  split.
  - repeat constructor; discriminate.
  - apply (commit_before_main_page Sample.calc Sample.table Sample.empty_store
             Sample.early_trace Sample.rq).
    repeat constructor; discriminate.
Defined.

(** The first commit of a fresh process, before any page load. *)
Example commit_at_startup :
  Main.renew Sample.calc Sample.rq Sample.started
  = (mkWorld Sample.table None
       (mkCo2 (persisted (pending Sample.table) Sample.table) [] [] [])
       ["Error in /reset: name 'total_co2' is not defined"],
     Raise (NameError "total_co2")).
Proof. apply (bool_decide_unpack _). vm_compute. exact I. Qed.

(** ** The invariant [co2 == count * base_co2] *)

Lemma on_match_inv action item : item_inv (Main.on_match action item).
Proof. unfold item_inv, Main.on_match. repeat case_decide; reflexivity. Qed.

Lemma reset_item_inv item : item_inv (reset_item item).
Proof.
  unfold item_inv, reset_item; simpl. by rewrite Z2Qc_inj_0, Qcmult_0_l.
Qed.

Lemma scan_items_inv action item_name l :
  Forall item_inv l -> Forall item_inv (Main.scan_items action item_name l).
Proof.
  induction 1 as [|item rest Hitem Hrest IH]; simpl; [constructor|].
  case_decide; constructor; auto using on_match_inv.
Qed.

Lemma scan_categories_inv action item_name l :
  table_inv l -> table_inv (Main.scan_categories action item_name l).
Proof.
  induction 1 as [|c rest Hc Hrest IH]; simpl; constructor; [|exact IH].
  simpl. by apply scan_items_inv.
Qed.

Lemma reset_table_inv l : table_inv (reset_table l).
Proof.
  unfold table_inv, reset_table. apply Forall_map, Forall_true. intros c; simpl.
  apply Forall_map, Forall_true. intros item. apply reset_item_inv.
Qed.

(** C3: every route keeps the invariant of every item of the table; among
    them the increments and decrements of [POST /] and [POST /main], the
    local reset of [POST /reset] and the commit of [POST /main/reset] with
    its final reset. *)
Theorem invariant_preserved calc route request w :
  table_inv (items w) ->
  table_inv (items (fst (dispatch calc route request w))).
Proof.
  intros Hinv. destruct route; simpl; try done.
  - rewrite scan_categories_agree. by apply scan_categories_inv.
  - apply reset_table_inv.
  - by apply scan_categories_inv.
  - destruct (renew_cases calc request w) as [(m & e & -> & _)|(m & -> & _)]; simpl;
      [done|apply reset_table_inv].
  - by rewrite (proj2 (logout_frame request w)).
Qed.

Lemma invariant_preserved_witness :
  table_inv (items Sample.tidy)
  /\ table_inv (items (fst (dispatch Sample.calc (POST_main "decrement" "A") Sample.rq
                              Sample.tidy))).
Proof.
  assert (table_inv (items Sample.tidy)) as Hinv
    by (apply (bool_decide_unpack _); vm_compute; exact I).
  split; [exact Hinv|].
  exact (invariant_preserved Sample.calc (POST_main "decrement" "A") Sample.rq
           Sample.tidy Hinv).
Defined.

(** The updates and the resets establish the invariant of the items they
    touch, whatever held before. *)
Lemma reset_establishes_invariant calc request w :
  table_inv (items (fst (Demo.renew request w)))
  /\ (forall w' r, Main.renew calc request w = (w', Return r) -> table_inv (items w')).
Proof.
  split; [apply reset_table_inv|].
  intros w' r Hrun.
  destruct (renew_cases calc request w) as [(m & e & Heq & _)|(m & Heq & _)];
    rewrite Heq in Hrun; [discriminate|].
  injection Hrun as <- _. apply reset_table_inv.
Qed.

(** ** Counts stay non-negative *)

Lemma scan_items_nonneg action item_name l :
  Forall (fun item => 0 <= count item) l ->
  Forall (fun item => 0 <= count item) (Main.scan_items action item_name l).
Proof.
  induction 1 as [|item rest Hitem Hrest IH]; simpl; [constructor|].
  case_decide; constructor; auto.
  unfold Main.on_match. repeat case_decide; simpl; lia.
Qed.

Lemma scan_categories_nonneg action item_name l :
  table_nonneg l -> table_nonneg (Main.scan_categories action item_name l).
Proof.
  induction 1 as [|c rest Hc Hrest IH]; simpl; constructor; [|exact IH].
  simpl. by apply scan_items_nonneg.
Qed.

Lemma reset_table_nonneg l : table_nonneg (reset_table l).
Proof.
  unfold table_nonneg, reset_table. apply Forall_map, Forall_true. intros c; simpl.
  apply Forall_map, Forall_true. intros item. simpl. lia.
Qed.

(** From a catalog without negative counts, no request makes one. *)
Lemma nonneg_preserved calc route request w :
  table_nonneg (items w) ->
  table_nonneg (items (fst (dispatch calc route request w))).
Proof.
  intros Hpos. destruct route; simpl; try done.
  - rewrite scan_categories_agree. by apply scan_categories_nonneg.
  - apply reset_table_nonneg.
  - by apply scan_categories_nonneg.
  - destruct (renew_cases calc request w) as [(m & e & -> & _)|(m & -> & _)]; simpl;
      [done|apply reset_table_nonneg].
  - by rewrite (proj2 (logout_frame request w)).
Qed.

Lemma serve_nonneg calc trace : forall w,
  table_nonneg (items w) -> table_nonneg (items (serve calc trace w)).
Proof.
  induction trace as [|rr rest IH]; intros w Hpos; [done|].
  unfold serve in *; simpl. apply IH. by apply nonneg_preserved.
Qed.

(** ** Logout, [POST /main/logout] *)

(** The cumulative totals of a ledger, as sums over its records. *)
Lemma fold_add_session l : forall acc,
  fold_left AppUtils.add_session l acc
  = (mkTotals
       (totals_co2 (fst acc) + Qc_sum (map session_total_co2 l))%Qc
       (mkEquivalents
          (car (totals_equivalents (fst acc))
           + Qc_sum (map (fun s => car (session_equivalents s)) l))%Qc
          (bus (totals_equivalents (fst acc))
           + Qc_sum (map (fun s => bus (session_equivalents s)) l))%Qc
          (plane (totals_equivalents (fst acc))
           + Qc_sum (map (fun s => plane (session_equivalents s)) l))%Qc),
     snd acc + Z.of_nat (length l)).
Proof.
  induction l as [|s rest IH]; intros [[t [c b p]] n]; simpl.
  - rewrite !Qcplus_0_r, Z.add_0_r. reflexivity.
  - rewrite IH. simpl. rewrite !Qcplus_assoc. f_equal. lia.
Qed.

Lemma calculate_total_sums l :
  AppUtils.calculate_total l
  = (mkTotals (Qc_sum (map session_total_co2 l))
       (mkEquivalents
          (Qc_sum (map (fun s => car (session_equivalents s)) l))
          (Qc_sum (map (fun s => bus (session_equivalents s)) l))
          (Qc_sum (map (fun s => plane (session_equivalents s)) l))),
     Z.of_nat (length l)).
Proof.
  unfold AppUtils.calculate_total. rewrite fold_add_session. simpl.
  by rewrite !Qcplus_0_l.
Qed.

(** C4: a logout with a ledger of N > 0 Session Records empties the ledger,
    appends one Logout Archive Entry, whose session count is N and whose
    cumulative totals are the sums over the N records, and leaves every
    persisted item count at 0; the table in memory is not touched. *)
Theorem logout_archives_ledger request w :
  (0 < length (coll_sessions (mongo w)))%nat ->
  let ledger := coll_sessions (mongo w) in
  let w' := fst (Main.logout request w) in
  coll_sessions (mongo w') = []
  /\ coll_logs (mongo w')
     = (coll_logs (mongo w) ++
        [mkLogoutEntry (cookies_get "user_name" (cookies request))
           (Z.of_nat (length ledger))
           (AppUtils.sort_updated_items
              (AppUtils.rearrange_updated_items (coll_co2 (mongo w))))
           (mkTotals (Qc_sum (map session_total_co2 ledger))
              (mkEquivalents
                 (Qc_sum (map (fun s => car (session_equivalents s)) ledger))
                 (Qc_sum (map (fun s => bus (session_equivalents s)) ledger))
                 (Qc_sum (map (fun s => plane (session_equivalents s)) ledger))))])%list
  /\ Forall (fun c => Forall (fun item => count item = 0) (cat_items c))
       (coll_co2 (mongo w'))
  /\ items w' = items w
  /\ snd (Main.logout request w) = Return (RedirectResponse "/" 303 ["user_name"]).
Proof.
  intros Hn ledger w'. unfold w', ledger.
  unfold Main.logout, bind, read_mongo, write_mongo, get_items, ret; simpl.
  unfold Co2Ops.get_all_sessions. rewrite calculate_total_sums. simpl.
  rewrite bool_decide_eq_true_2 by lia. simpl.
  repeat split.
  apply Forall_map, Forall_true. intros c; simpl.
  apply Forall_map, Forall_true. done.
Qed.

Lemma logout_archives_ledger_witness :
  (0 < length (coll_sessions (mongo Sample.two_sessions)))%nat
  /\ coll_sessions (mongo (fst (Main.logout Sample.rq Sample.two_sessions))) = []
  /\ length (coll_logs (mongo (fst (Main.logout Sample.rq Sample.two_sessions)))) = 1%nat.
Proof.
  assert (0 < length (coll_sessions (mongo Sample.two_sessions)))%nat as Hn
    by (vm_compute; lia).
  split; [exact Hn|].
  destruct (logout_archives_ledger Sample.rq Sample.two_sessions Hn) as (Hs & Hl & _).
  split; [exact Hs|]. rewrite Hl. reflexivity.
Defined.

(** The archive entry of that logout, evaluated: two sessions, of totals 11
    and 7. *)
Example logout_two_sessions :
  map (fun e => (user_name e, sessions e, map name (sorted_items e)))
    (coll_logs (mongo (fst (Main.logout Sample.rq Sample.two_sessions))))
  = [(Some "Ada", 2, ["A"; "C"; "B"])]
  /\ map (fun e => totals_co2 (total e))
       (coll_logs (mongo (fst (Main.logout Sample.rq Sample.two_sessions))))
     = [Qc_of_Z 18].
Proof.
  split; [vm_compute; reflexivity|].
  apply (bool_decide_unpack _); vm_compute; exact I.
Qed.

(** C5: a logout with an empty ledger writes no Logout Archive Entry,
    deletes nothing and leaves the persisted items, and the whole world, as
    they were; the response deletes the cookie [user_name]. *)
Theorem logout_empty_ledger request w :
  coll_sessions (mongo w) = [] ->
  Main.logout request w = (w, Return (RedirectResponse "/" 303 ["user_name"])).
Proof.
  intros Hempty.
  unfold Main.logout, bind, read_mongo, write_mongo, get_items, ret; simpl.
  unfold Co2Ops.get_all_sessions. rewrite Hempty. reflexivity.
Qed.

Lemma logout_empty_ledger_witness :
  coll_sessions (mongo Sample.loaded) = []
  /\ Main.logout Sample.rq Sample.loaded
     = (Sample.loaded, Return (RedirectResponse "/" 303 ["user_name"])).
Proof.
  split; [reflexivity|].
  apply (logout_empty_ledger Sample.rq Sample.loaded). reflexivity.
Defined.

(** ** What no request changes *)

Lemma on_match_shape action item :
  name (Main.on_match action item) = name item
  /\ base_co2 (Main.on_match action item) = base_co2 item.
Proof. unfold Main.on_match. repeat case_decide; done. Qed.

Lemma scan_items_shape action item_name l :
  map (fun item => (name item, base_co2 item)) (Main.scan_items action item_name l)
  = map (fun item => (name item, base_co2 item)) l.
Proof.
  induction l as [|item rest IH]; [reflexivity|].
  cbn [Main.scan_items]. case_decide; cbn [map]; [|by rewrite IH].
  by destruct (on_match_shape action item) as [-> ->].
Qed.

Lemma scan_categories_shape action item_name l :
  shape (Main.scan_categories action item_name l) = shape l.
Proof.
  unfold shape. induction l as [|c rest IH]; [reflexivity|].
  cbn [Main.scan_categories map]. rewrite IH. simpl. do 2 f_equal.
  apply scan_items_shape.
Qed.

Lemma reset_table_shape l : shape (reset_table l) = shape l.
Proof.
  unfold shape, reset_table. rewrite map_map. apply map_ext. intros c; simpl.
  f_equal. rewrite map_map. by apply map_ext.
Qed.

Lemma dispatch_shape calc route request w :
  shape (items (fst (dispatch calc route request w))) = shape (items w).
Proof.
  destruct route; simpl; try done.
  - rewrite scan_categories_agree. apply scan_categories_shape.
  - apply reset_table_shape.
  - apply scan_categories_shape.
  - destruct (renew_cases calc request w) as [(m & e & -> & _)|(m & -> & _)]; simpl;
      [done|apply reset_table_shape].
  - by rewrite (proj2 (logout_frame request w)).
Qed.

(** X1: whatever requests are served, the table keeps its categories and
    their order, and every category its items, their order, their names and
    their [base_co2]: handlers write counts and co2 only. *)
Theorem table_shape_never_changes calc trace w :
  shape (items (serve calc trace w)) = shape (items w).
Proof.
  revert w. induction trace as [|rr rest IH]; intros w; [reflexivity|].
  unfold serve in *; simpl. rewrite IH. apply dispatch_shape.
Qed.

Lemma dispatch_keeps_inv calc route request w :
  table_inv (items w) -> table_inv (items (fst (dispatch calc route request w))).
Proof.
  intros Hinv. destruct route; simpl; try done.
  - rewrite scan_categories_agree. by apply scan_categories_inv.
  - apply reset_table_inv.
  - by apply scan_categories_inv.
  - destruct (renew_cases calc request w) as [(m & e & -> & _)|(m & -> & _)]; simpl;
      [done|apply reset_table_inv].
  - by rewrite (proj2 (logout_frame request w)).
Qed.

Lemma serve_inv calc trace : forall w,
  table_inv (items w) -> table_inv (items (serve calc trace w)).
Proof.
  induction trace as [|rr rest IH]; intros w Hinv; [done|].
  unfold serve in *; simpl. apply IH. by apply dispatch_keeps_inv.
Qed.

(** X2: started on a catalog in which [co2 == count * base_co2] holds and
    no count is negative, the application is in such a state after every
    sequence of requests, whatever the store held and whichever requests
    raised. *)
Theorem reachable_states_well_formed calc catalog store trace :
  table_inv catalog ->
  table_nonneg catalog ->
  table_inv (items (serve calc trace (startup catalog store)))
  /\ table_nonneg (items (serve calc trace (startup catalog store))).
Proof.
  intros Hinv Hpos. split; [by apply serve_inv|by apply serve_nonneg].
Qed.

Lemma reachable_states_well_formed_witness :
  table_inv (items Sample.tidy)
  /\ table_nonneg (items Sample.tidy)
  /\ table_inv (items (serve Sample.calc Sample.quiet_trace Sample.tidy))
  /\ table_nonneg (items (serve Sample.calc Sample.quiet_trace Sample.tidy)).
Proof.
  assert (table_inv (items Sample.tidy)) as Hinv
    by (apply (bool_decide_unpack _); vm_compute; exact I).
  assert (table_nonneg (items Sample.tidy)) as Hpos
    by (apply (bool_decide_unpack _); vm_compute; exact I).
  split; [exact Hinv|]. split; [exact Hpos|].
  exact (reachable_states_well_formed Sample.calc _ Sample.empty_store
           Sample.quiet_trace Hinv Hpos).
Defined.

Lemma dispatch_store_frame calc route request w :
  calls_no_write route = true ->
  mongo (fst (dispatch calc route request w)) = mongo w
  /\ stdout (fst (dispatch calc route request w)) = stdout w.
Proof. destruct route; simpl; done. Qed.

(** X3: the routes of the two pages that show and change counts ([GET /],
    [POST /], [POST /reset], [GET /main], [POST /main]) never write to the
    document store and never print: the persisted records stay behind the
    table until a commit, a logout or an administrative route runs. *)
Theorem counting_leaves_store calc trace w :
  Forall (fun rr => calls_no_write (fst rr) = true) trace ->
  mongo (serve calc trace w) = mongo w
  /\ stdout (serve calc trace w) = stdout w.
Proof.
  revert w. induction trace as [|rr rest IH]; intros w Htrace; [done|].
  inversion Htrace as [|? ? Hrr Hrest]; subst.
  unfold serve in *; simpl.
  destruct (IH (fst (dispatch calc (fst rr) (snd rr) w)) Hrest) as [-> ->].
  by apply dispatch_store_frame.
Qed.

Lemma counting_leaves_store_witness :
  Forall (fun rr => calls_no_write (fst rr) = true) Sample.quiet_trace
  /\ mongo (serve Sample.calc Sample.quiet_trace Sample.loaded) = mongo Sample.loaded
  /\ stdout (serve Sample.calc Sample.quiet_trace Sample.loaded) = stdout Sample.loaded.
Proof.
  split; [repeat constructor|].
  apply (counting_leaves_store Sample.calc Sample.quiet_trace Sample.loaded).
  repeat constructor.
Defined.



Lemma serve_app calc t1 t2 w :
  serve calc (t1 ++ t2) w = serve calc t2 (serve calc t1 w).
Proof. unfold serve. apply fold_left_app. Qed.




(** ** An action that is neither increment nor decrement *)






(** ** The grand total *)

Lemma Qc_sum_app l1 l2 : Qc_sum (l1 ++ l2) = (Qc_sum l1 + Qc_sum l2)%Qc.
Proof.
  induction l1 as [|x rest IH]; simpl; [by rewrite Qcplus_0_l|].
  by rewrite IH, Qcplus_assoc.
Qed.

Lemma fold_co2 l : forall a,
  fold_left (fun acc item => (acc + co2 item)%Qc) l a = (a + Qc_sum (map co2 l))%Qc.
Proof.
  induction l as [|item rest IH]; intros a; simpl; [by rewrite Qcplus_0_r|].
  by rewrite IH, Qcplus_assoc.
Qed.

Lemma fold_sum_co2 l : forall a,
  fold_left (fun acc c => fold_left (fun acc' item => (acc' + co2 item)%Qc) (cat_items c) acc)
    l a
  = (a + Qc_sum (map co2 (all_items l)))%Qc.
Proof.
  unfold all_items. induction l as [|c rest IH]; intros a; simpl; [by rewrite Qcplus_0_r|].
  by rewrite IH, fold_co2, map_app, Qc_sum_app, Qcplus_assoc.
Qed.

(** The nested generator of the two pages sums the co2 of all items. *)
Lemma sum_co2_flat l : sum_co2 l = Qc_sum (map co2 (all_items l)).
Proof. unfold sum_co2. by rewrite fold_sum_co2, Qcplus_0_l. Qed.

Lemma sum_co2_cons c rest :
  sum_co2 (c :: rest) = (Qc_sum (map co2 (cat_items c)) + sum_co2 rest)%Qc.
Proof. rewrite !sum_co2_flat. unfold all_items. simpl. by rewrite map_app, Qc_sum_app. Qed.

Lemma table_inv_all_items l : table_inv l -> Forall item_inv (all_items l).
Proof.
  unfold all_items. induction 1 as [|c rest Hc Hrest IH]; simpl; [constructor|].
  by apply Forall_app.
Qed.

(** X6: in a table where the invariant holds, the total that [GET /] and
    [GET /main] show, and that [GET /main] binds to [total_co2], is the sum
    over all items of [count * base_co2]. *)
Theorem shown_total_is_counts_times_base calc request w :
  table_inv (items w) ->
  let expected :=
    Qc_sum (map (fun item => (Qc_of_Z (count item) * base_co2 item)%Qc)
              (all_items (items w))) in
  total_co2 (fst (Main.main calc request w)) = Some expected
  /\ (exists ctx deleted,
        snd (Main.main calc request w) = Return (TemplateResponse "main.html" ctx deleted)
        /\ ctx_total_co2 ctx = expected)
  /\ (exists ctx deleted,
        snd (Demo.demo calc request w) = Return (TemplateResponse "demo.html" ctx deleted)
        /\ ctx_total_co2 ctx = expected).
Proof.
  intros Hinv expected.
  assert (sum_co2 (items w) = expected) as Hsum.
  { rewrite sum_co2_flat. unfold expected. f_equal.
    apply table_inv_all_items in Hinv.
    induction Hinv as [|item rest Hitem Hrest IH]; simpl; [reflexivity|].
    by rewrite IH, Hitem. }
  split; [simpl; by rewrite Hsum|].
  split; eexists _, _; (split; [reflexivity|]); simpl; exact Hsum.
Qed.

Lemma shown_total_is_counts_times_base_witness :
  table_inv (items Sample.tidy)
  /\ total_co2 (fst (Main.main Sample.calc Sample.rq Sample.tidy))
     = Some (Qc_sum (map (fun item => (Qc_of_Z (count item) * base_co2 item)%Qc)
                       (all_items (items Sample.tidy)))).
Proof.
  assert (table_inv (items Sample.tidy)) as Hinv
    by (apply (bool_decide_unpack _); vm_compute; exact I).
  split; [exact Hinv|].
  exact (proj1 (shown_total_is_counts_times_base Sample.calc Sample.rq Sample.tidy Hinv)).
Defined.

(** ** What one request does to the grand total *)

Lemma Qc_sum_cons x l : Qc_sum (x :: l) = (x + Qc_sum l)%Qc.
Proof. reflexivity. Qed.












(** ** Repeated requests *)

Lemma scan_items_update_first action item_name l :
  Main.scan_items action item_name l = update_first (Main.on_match action) item_name l.
Proof. induction l as [|item rest IH]; simpl; [reflexivity|by rewrite IH]. Qed.

Lemma update_first_ext f g item_name l :
  (forall item, f item = g item) ->
  update_first f item_name l = update_first g item_name l.
Proof.
  intros Hfg. induction l as [|item rest IH]; simpl; [reflexivity|].
  by rewrite Hfg, IH.
Qed.

Lemma update_first_compose f g item_name l :
  (forall item, name (g item) = name item) ->
  update_first f item_name (update_first g item_name l)
  = update_first (fun item => f (g item)) item_name l.
Proof.
  intros Hname. induction l as [|item rest IH]; simpl; [reflexivity|].
  case_decide as Hitem; simpl.
  - by rewrite Hname, decide_True.
  - by rewrite decide_False, IH.
Qed.

Lemma recount_on_match action n item :
  Main.on_match action (recount n item)
  = recount (if decide (action = "increment") then n + 1
             else if decide (action = "decrement") then Z.max 0 (n - 1) else n) item.
Proof. unfold Main.on_match, recount. repeat case_decide; reflexivity. Qed.

Lemma on_match_recount action item :
  Main.on_match action item
  = recount (if decide (action = "increment") then count item + 1
             else if decide (action = "decrement") then Z.max 0 (count item - 1)
             else count item) item.
Proof. unfold Main.on_match, recount. repeat case_decide; reflexivity. Qed.

(** [k + 1] requests with the same action and name, on one category. *)
Lemma iter_scan_items action item_name k l :
  Nat.iter (S k) (Main.scan_items action item_name) l
  = update_first (Nat.iter (S k) (Main.on_match action)) item_name l.
Proof.
  induction k as [|k IH]; [apply scan_items_update_first|].
  rewrite Nat.iter_succ, IH, scan_items_update_first, update_first_compose; [reflexivity|].
  intros item. generalize (S k) as n. induction n as [|n IHn]; [reflexivity|].
  rewrite Nat.iter_succ. by rewrite on_match_name.
Qed.

Lemma iter_scan_categories action item_name k l :
  Nat.iter (S k) (Main.scan_categories action item_name) l
  = map (fun c => set_cat_items c
                    (update_first (Nat.iter (S k) (Main.on_match action)) item_name
                       (cat_items c))) l.
Proof.
  induction k as [|k IH].
  - simpl. rewrite scan_categories_each. apply map_ext. intros c.
    by rewrite scan_items_update_first.
  - rewrite Nat.iter_succ, IH, scan_categories_each, map_map. apply map_ext. intros c.
    cbn [cat_items set_cat_items]. f_equal.
    rewrite <- iter_scan_items, <- Nat.iter_succ. apply iter_scan_items.
Qed.

Lemma serve_replicate calc route request k w :
  serve calc (replicate k (route, request)) w
  = Nat.iter k (fun w' => fst (dispatch calc route request w')) w.
Proof.
  revert w. induction k as [|k IH]; intros w; [reflexivity|].
  rewrite Nat.iter_succ_r. unfold serve in *. simpl. apply IH.
Qed.

Lemma iter_update_count request action item_name k w :
  items (Nat.iter k (fun w' => fst (Main.update_count request action item_name w')) w)
  = Nat.iter k (Main.scan_categories action item_name) (items w).
Proof.
  induction k as [|k IH]; [reflexivity|]. rewrite !Nat.iter_succ, <- IH. reflexivity.
Qed.

Lemma iter_decrement k item :
  Nat.iter (S k) (Main.on_match "decrement") item
  = recount (Z.max 0 (count item - Z.of_nat (S k))) item.
Proof.
  induction k as [|k IH].
  - simpl. by rewrite on_match_recount.
  - rewrite Nat.iter_succ, IH, recount_on_match.
    rewrite decide_False, decide_True by done. f_equal. lia.
Qed.

Lemma iter_increment k item :
  Nat.iter (S k) (Main.on_match "increment") item
  = recount (count item + Z.of_nat (S k)) item.
Proof.
  induction k as [|k IH].
  - simpl. by rewrite on_match_recount.
  - rewrite Nat.iter_succ, IH, recount_on_match.
    rewrite decide_True by done. f_equal. lia.
Qed.

(** X9: [k >= 1] decrements of one name, served in a row, amount to one
    update: in every category the first item of that name ends with the
    count [max(0, count - k)] and the co2 of that count, and no other item
    changes. *)
Theorem repeated_decrement calc request item_name k w :
  (0 < k)%nat ->
  items (serve calc (replicate k (POST_main "decrement" item_name, request)) w)
  = map (fun c =>
           set_cat_items c
             (update_first (fun item => recount (Z.max 0 (count item - Z.of_nat k)) item)
                item_name (cat_items c)))
      (items w).
Proof.
  intros Hk. destruct k as [|k]; [lia|].
  rewrite serve_replicate. cbn [dispatch].
  rewrite iter_update_count, iter_scan_categories. apply map_ext. intros c.
  f_equal. apply update_first_ext. intros item. apply iter_decrement.
Qed.

Lemma repeated_decrement_witness :
  (0 < 5)%nat
  /\ items (serve Sample.calc (replicate 5 (POST_main "decrement" "A", Sample.rq))
              Sample.tidy)
     = map (fun c =>
              set_cat_items c
                (update_first (fun item => recount (Z.max 0 (count item - Z.of_nat 5)) item)
                   "A" (cat_items c)))
         (items Sample.tidy).
Proof.
  split; [lia|].
  apply (repeated_decrement Sample.calc Sample.rq "A" 5 Sample.tidy). lia.
Defined.

(** X10: [k >= 1] increments of one name, served in a row, amount to one
    update: in every category the first item of that name ends with the
    count [count + k] and the co2 of that count, and no other item
    changes. *)
Theorem repeated_increment calc request item_name k w :
  (0 < k)%nat ->
  items (serve calc (replicate k (POST_main "increment" item_name, request)) w)
  = map (fun c =>
           set_cat_items c
             (update_first (fun item => recount (count item + Z.of_nat k) item)
                item_name (cat_items c)))
      (items w).
Proof.
  intros Hk. destruct k as [|k]; [lia|].
  rewrite serve_replicate. cbn [dispatch].
  rewrite iter_update_count, iter_scan_categories. apply map_ext. intros c.
  f_equal. apply update_first_ext. intros item. apply iter_increment.
Qed.

Lemma repeated_increment_witness :
  (0 < 4)%nat
  /\ items (serve Sample.calc (replicate 4 (POST_main "increment" "Cup", Sample.rq))
              Sample.tidy)
     = map (fun c =>
              set_cat_items c
                (update_first (fun item => recount (count item + Z.of_nat 4) item)
                   "Cup" (cat_items c)))
         (items Sample.tidy).
Proof.
  split; [lia|].
  apply (repeated_increment Sample.calc Sample.rq "Cup" 4 Sample.tidy). lia.
Defined.

(** ** The dict [exc_items] of the commit *)

Lemma exc_append_keys cat e exc :
  map fst (Main.exc_append cat e exc)
  = if decide (cat ∈ map fst exc) then map fst exc else (map fst exc ++ [cat])%list.
Proof.
  induction exc as [|[k l] rest IH]; cbn [Main.exc_append map fst].
  - rewrite decide_False; [reflexivity|]. by intros ?%elem_of_nil.
  - destruct (decide (k = cat)) as [->|Hk]; cbn [map fst].
    + rewrite decide_True; [reflexivity|]. by left.
    + rewrite IH. destruct (decide (cat ∈ map fst rest)) as [Hin|Hout].
      * rewrite decide_True; [reflexivity|]. by right.
      * rewrite decide_False; [reflexivity|].
        intros [?|?]%elem_of_cons; [congruence|done].
Qed.

Lemma exc_append_NoDup cat e exc :
  NoDup (map fst exc) -> NoDup (map fst (Main.exc_append cat e exc)).
Proof.
  intros Hnd. rewrite exc_append_keys. case_decide as Hin; [done|].
  apply list.NoDup_app. split; [done|]. split; [|apply NoDup_singleton].
  intros k Hk ->%list_elem_of_singleton. done.
Qed.

Lemma exc_get_append cat' cat e exc :
  exc_get cat' (Main.exc_append cat e exc)
  = if decide (cat = cat') then Some (default [] (exc_get cat' exc) ++ [e])%list
    else exc_get cat' exc.
Proof.
  induction exc as [|[k l] rest IH]; simpl.
  - by destruct (decide (cat = cat')).
  - destruct (decide (k = cat)) as [->|Hk]; simpl.
    + by destruct (decide (cat = cat')).
    + rewrite IH. destruct (decide (k = cat')) as [->|Hk']; [|done].
      by rewrite decide_False.
Qed.

Lemma exc_get_collected cat ws : forall exc,
  exc_get cat (collected ws exc)
  = exc_extend (exc_get cat exc)
      (map (fun ci => to_exc (snd ci))
         (List.filter (fun ci => bool_decide (fst ci = cat)) ws)).
Proof.
  induction ws as [|ci rest IH]; intros exc; [reflexivity|].
  change (collected (ci :: rest) exc)
    with (collected rest (Main.exc_append (fst ci) (to_exc (snd ci)) exc)).
  rewrite IH, exc_get_append. cbn [List.filter].
  case_bool_decide as Hci.
  - rewrite decide_True by done. cbn [map].
    destruct (map _ (List.filter _ rest)) as [|e' add]; simpl; [done|].
    by rewrite <- app_assoc.
  - by rewrite decide_False.
Qed.

Lemma pending_items_filter cat0 cat l :
  map (fun ci => to_exc (snd ci))
    (List.filter (fun ci => bool_decide (fst ci = cat)) (pending_items cat0 l))
  = if decide (cat0 = cat) then map to_exc (List.filter Main.exchanged l) else [].
Proof.
  destruct (decide (cat0 = cat)) as [->|Hne].
  - induction l as [|item rest IH]; simpl; [done|].
    destruct (Main.exchanged item); simpl; [|exact IH].
    rewrite bool_decide_eq_true_2 by done. simpl. by rewrite IH.
  - induction l as [|item rest IH]; simpl; [done|].
    destruct (Main.exchanged item); simpl; [|exact IH].
    rewrite bool_decide_eq_false_2 by done. exact IH.
Qed.

Lemma pending_filter cat l :
  map (fun ci => to_exc (snd ci))
    (List.filter (fun ci => bool_decide (fst ci = cat)) (pending l))
  = exchanged_in cat l.
Proof.
  induction l as [|c rest IH]; simpl; [reflexivity|].
  by rewrite List.filter_app, map_app, IH, pending_items_filter.
Qed.

Lemma collected_NoDup ws : forall exc,
  NoDup (map fst exc) -> NoDup (map fst (collected ws exc)).
Proof.
  induction ws as [|ci rest IH]; intros exc Hnd; [done|].
  apply IH. by apply exc_append_NoDup.
Qed.

(** The loops of the commit return the dict that [collected] builds. *)
Lemma run_writes_returns ws : forall exc w w' exc',
  run_writes ws exc w = (w', Return exc') -> exc' = collected ws exc.
Proof.
  induction ws as [|ci rest IH]; intros exc w w' exc'; simpl.
  - by intros [= _ <-].
  - destruct w as [its tot [docs sess logs tp] out]. step_mongo.
    destruct tp as [|[msg|] tp]; simpl; [apply IH|discriminate|apply IH].
Qed.

(** X11: when the loops of the commit run through, the dict [exc_items] has
    one key per category name that has an exchanged item (count > 0 or
    co2 > 0), no key twice and no key for other categories; under a key it
    lists the exchanged items of the categories of that name, in table
    order, each with its name, count and co2. *)
Theorem exchanged_items_by_category l w w' exc :
  Main.save_categories l [] w = (w', Return exc) ->
  NoDup (map fst exc)
  /\ forall cat,
      exc_get cat exc
      = match exchanged_in cat l with
        | [] => None
        | entries => Some entries
        end.
Proof.
  rewrite save_categories_run. intros ->%run_writes_returns. split.
  - apply collected_NoDup. constructor.
  - intros cat. rewrite exc_get_collected, pending_filter.
    by destruct (exchanged_in cat l).
Qed.

Lemma exchanged_items_by_category_witness :
  Sample.saved = (fst Sample.saved, Return Sample.saved_exc)
  /\ NoDup (map fst Sample.saved_exc)
  /\ forall cat,
      exc_get cat Sample.saved_exc
      = match exchanged_in cat Sample.table with
        | [] => None
        | entries => Some entries
        end.
Proof.
  assert (Main.save_categories Sample.table [] Sample.loaded
          = (fst Sample.saved, Return Sample.saved_exc)) as Hrun
    by (apply (bool_decide_unpack _); vm_compute; exact I).
  split; [exact Hrun|].
  exact (exchanged_items_by_category Sample.table Sample.loaded _ _ Hrun).
Defined.

(** ** A commit right after a page load *)

Section CommitSucceeds.

Variable calculate_equivalents : Qc -> Equivalents.
Variable request : Request.

(** The whole result of a commit in which no write fails. *)
Lemma renew_succeeds w t :
  total_co2 w = Some t ->
  no_fault (commit_writes w) (faults (mongo w)) ->
  Main.renew calculate_equivalents request w
  = (mkWorld (reset_table (items w)) (Some t)
       (mkCo2 (persisted (pending (items w)) (coll_co2 (mongo w)))
          (coll_sessions (mongo w) ++
           if bool_decide (0 < t)%Qc
           then [mkSession t (calculate_equivalents t) (collected (pending (items w)) [])]
           else [])
          (coll_logs (mongo w))
          (drop (commit_writes w) (faults (mongo w))))
       (stdout w),
     Return (RedirectResponse "/main" 303 [])).
Proof.
  intros Htot Hok. unfold commit_writes in *. rewrite Htot in *.
  unfold Main.renew, try_except, Main.renew_body, bind, get_items.
  rewrite save_categories_run.
  rewrite run_writes_ok by (eapply no_fault_le; [|exact Hok]; lia).
  destruct w as [its tot [docs sess logs tp] out]; simpl in *; subst tot.
  unfold read_total_co2; simpl.
  destruct (bool_decide (0 < t)%Qc) eqn:Hpos; simpl.
  - unfold call_mongo, Co2Ops.insert_session, Co2Ops.commit_write; simpl.
    rewrite <- drop_drop.
    destruct (drop (length (pending its)) tp) as [|[msg|] rest] eqn:Hdrop; simpl.
    + done.
    + exfalso. eapply (no_fault_next (length (pending its))); [|exact Hdrop].
      by rewrite Nat.add_1_r in Hok.
    + done.
  - by rewrite app_nil_r, Nat.add_0_r.
Qed.

End CommitSucceeds.

Lemma no_fault_0 tape : no_fault 0 tape.
Proof. unfold no_fault. rewrite take_0. constructor. Qed.

Lemma commit_writes_bound w : (commit_writes w <= S (length (pending (items w))))%nat.
Proof.
  unfold commit_writes. destruct (total_co2 w) as [t|]; [|lia].
  destruct (bool_decide (0 < t)%Qc); lia.
Qed.

(** X12: a load of the main page followed by a commit, with no write
    failing: every exchanged item is written to the item records, one
    Session Record is added exactly when the grand total of the table is
    positive, holding that total, its equivalents and the dict the loops
    built, the table is reset, nothing is printed, and [total_co2] keeps the
    total of the page load. *)
Theorem page_load_then_commit calc request request' w :
  no_fault (S (length (pending (items w)))) (faults (mongo w)) ->
  let grand_total := sum_co2 (items w) in
  let w' := serve calc [(GET_main, request); (POST_main_reset, request')] w in
  items w' = reset_table (items w)
  /\ total_co2 w' = Some grand_total
  /\ stdout w' = stdout w
  /\ coll_co2 (mongo w') = persisted (pending (items w)) (coll_co2 (mongo w))
  /\ exists exc,
      snd (Main.save_categories (items w) [] w) = Return exc
      /\ coll_sessions (mongo w')
         = (coll_sessions (mongo w) ++
            if bool_decide (0 < grand_total)%Qc
            then [mkSession grand_total (calc grand_total) exc]
            else [])%list.
Proof.
  intros Hok grand_total w'. unfold w', serve. cbn [fold_left fst snd dispatch].
  rewrite (renew_succeeds calc request' _ grand_total);
    [|reflexivity|eapply no_fault_le; [apply commit_writes_bound|exact Hok]].
  cbn [fst items total_co2 stdout mongo coll_co2 coll_sessions].
  repeat split.
  exists (collected (pending (items w)) []). split; [|reflexivity].
  rewrite save_categories_run, run_writes_ok; [reflexivity|].
  eapply no_fault_le; [|exact Hok]. lia.
Qed.

Lemma page_load_then_commit_witness :
  no_fault (S (length (pending (items Sample.started)))) (faults (mongo Sample.started))
  /\ items (serve Sample.calc [(GET_main, Sample.rq); (POST_main_reset, Sample.rq)]
              Sample.started)
     = reset_table (items Sample.started).
Proof.
  assert (no_fault (S (length (pending (items Sample.started))))
            (faults (mongo Sample.started))) as Hok
    by (apply (bool_decide_unpack _); vm_compute; exact I).
  split; [exact Hok|].
  exact (proj1 (page_load_then_commit Sample.calc Sample.rq Sample.rq Sample.started Hok)).
Defined.

Lemma exc_append_nonempty cat e exc : Main.exc_append cat e exc <> [].
Proof. destruct exc as [|[k l] rest]; simpl; [done|]. by case_decide. Qed.

Lemma collected_nonempty ws : forall exc, exc <> [] -> collected ws exc <> [].
Proof.
  induction ws as [|ci rest IH]; intros exc Hexc; [done|].
  apply IH, exc_append_nonempty.
Qed.

Lemma pending_nil_not_exchanged l :
  pending l = [] -> Forall (fun item => Main.exchanged item = false) (all_items l).
Proof.
  unfold all_items. induction l as [|c rest IH]; simpl; [constructor|].
  intros [Hc Hrest]%app_eq_nil. apply Forall_app. split; [|by apply IH].
  clear IH Hrest. induction (cat_items c) as [|item items IHi]; [constructor|].
  simpl in Hc. destruct (Main.exchanged item) eqn:He; [discriminate|].
  constructor; [done|by apply IHi].
Qed.

Lemma all_items_Forall (P : Item -> Prop) l :
  Forall (fun c => Forall P (cat_items c)) l -> Forall P (all_items l).
Proof.
  unfold all_items. induction 1 as [|c rest Hc Hrest IH]; simpl; [constructor|].
  by apply Forall_app.
Qed.

Lemma positive_total_pending l :
  Forall (fun c => Forall (fun item => (0 <= co2 item)%Qc) (cat_items c)) l ->
  (0 < sum_co2 l)%Qc ->
  pending l <> [].
Proof.
  intros Hnn Hpos Hnil. apply pending_nil_not_exchanged in Hnil.
  apply all_items_Forall in Hnn. rewrite sum_co2_flat in Hpos.
  assert (Qc_sum (map co2 (all_items l)) = 0%Qc) as Hzero; [|by rewrite Hzero in Hpos].
  clear Hpos. induction (all_items l) as [|item rest IH]; [reflexivity|].
  inversion Hnil as [|? ? Hitem Hrest]; inversion Hnn as [|? ? Hge Hge']; subst.
  rewrite map_cons, Qc_sum_cons, IH by done.
  unfold Main.exchanged in Hitem. apply orb_false_iff in Hitem as [_ Hco2].
  apply bool_decide_eq_false in Hco2. apply Qcnot_lt_le in Hco2.
  rewrite (Qcle_antisym _ _ Hco2 Hge). ring.
Qed.

(** X13: in a table without negative co2, a Session Record that a commit
    writes right after a load of the main page, no write failing, never has
    an empty [exchanged_items]. *)
Theorem session_after_page_load_lists_items calc request request' w :
  no_fault (S (length (pending (items w)))) (faults (mongo w)) ->
  Forall (fun c => Forall (fun item => (0 <= co2 item)%Qc) (cat_items c)) (items w) ->
  Forall (fun s => exchanged_items s <> [])
    (drop (length (coll_sessions (mongo w)))
       (coll_sessions
          (mongo (serve calc [(GET_main, request); (POST_main_reset, request')] w)))).
Proof.
  intros Hok Hnn. unfold serve. cbn [fold_left fst snd dispatch].
  rewrite (renew_succeeds calc request' _ (sum_co2 (items w)));
    [|reflexivity|eapply no_fault_le; [apply commit_writes_bound|exact Hok]].
  cbn [fst items mongo coll_sessions]. rewrite drop_app_length.
  case_bool_decide as Hpos; [|constructor].
  constructor; [|constructor]. simpl.
  destruct (pending (items w)) as [|ci rest] eqn:Hpending.
  - by destruct (positive_total_pending (items w) Hnn Hpos).
  - change (collected (ci :: rest) [])
      with (collected rest (Main.exc_append (fst ci) (to_exc (snd ci)) [])).
    apply collected_nonempty, exc_append_nonempty.
Qed.

Lemma session_after_page_load_lists_items_witness :
  no_fault (S (length (pending (items Sample.started)))) (faults (mongo Sample.started))
  /\ Forall (fun c => Forall (fun item => (0 <= co2 item)%Qc) (cat_items c))
       (items Sample.started)
  /\ Forall (fun s => exchanged_items s <> [])
       (drop (length (coll_sessions (mongo Sample.started)))
          (coll_sessions
             (mongo (serve Sample.calc [(GET_main, Sample.rq); (POST_main_reset, Sample.rq)]
                       Sample.started)))).
Proof.
  assert (no_fault (S (length (pending (items Sample.started))))
            (faults (mongo Sample.started))) as Hok
    by (apply (bool_decide_unpack _); vm_compute; exact I).
  assert (Forall (fun c => Forall (fun item => (0 <= co2 item)%Qc) (cat_items c))
            (items Sample.started)) as Hnn
    by (apply (bool_decide_unpack _); vm_compute; exact I).
  split; [exact Hok|]. split; [exact Hnn|].
  exact (session_after_page_load_lists_items Sample.calc Sample.rq Sample.rq
           Sample.started Hok Hnn).
Defined.

(** ** The local reset, [POST /reset] *)

Lemma reset_table_idem l : reset_table (reset_table l) = reset_table l.
Proof.
  unfold reset_table. rewrite map_map. apply map_ext. intros c; simpl.
  f_equal. rewrite map_map. by apply map_ext.
Qed.

Lemma sum_co2_reset l : sum_co2 (reset_table l) = 0%Qc.
Proof.
  induction l as [|c rest IH]; [reflexivity|].
  change (reset_table (c :: rest))
    with (set_cat_items c (map reset_item (cat_items c)) :: reset_table rest).
  rewrite sum_co2_cons, IH, Qcplus_0_r. cbn [cat_items set_cat_items].
  induction (cat_items c) as [|item its IHi]; [reflexivity|].
  rewrite !map_cons, Qc_sum_cons, IHi. apply Qcplus_0_r.
Qed.

Lemma pending_reset l : pending (reset_table l) = [].
Proof.
  induction l as [|c rest IH]; [reflexivity|].
  cbn [reset_table map pending cat_items set_cat_items category].
  fold (reset_table rest). rewrite IH, app_nil_r.
  induction (cat_items c) as [|item items IHi]; [reflexivity|]. exact IHi.
Qed.

(** X14: after a local reset and a load of the main page, a commit writes
    nothing: no item record, no Session Record, no line of output; the
    store is the one before the three requests, whatever faults it has in
    stock, the table is all zeros and [total_co2] is 0. *)
Theorem reset_then_commit_writes_nothing calc request1 request2 request3 w :
  serve calc [(POST_reset, request1); (GET_main, request2); (POST_main_reset, request3)] w
  = mkWorld (reset_table (items w)) (Some 0%Qc) (mongo w) (stdout w).
Proof.
  unfold serve. cbn [fold_left fst snd dispatch].
  change (fst (Main.main calc request2 (fst (Demo.renew request1 w))))
    with (mkWorld (reset_table (items w)) (Some (sum_co2 (reset_table (items w))))
            (mongo w) (stdout w)).
  rewrite sum_co2_reset.
  assert (commit_writes (mkWorld (reset_table (items w)) (Some 0%Qc) (mongo w) (stdout w))
          = 0%nat) as Hwrites.
  { unfold commit_writes. cbn [items total_co2]. by rewrite pending_reset. }
  rewrite (renew_succeeds calc request3 _ 0%Qc); [|reflexivity|].
  - rewrite Hwrites. cbn [fst items mongo stdout].
    rewrite reset_table_idem, pending_reset.
    destruct (mongo w) as [docs sess logs tp]; simpl. by rewrite app_nil_r.
  - rewrite Hwrites. apply no_fault_0.
Qed.

(** ** The two ends of a commit *)

(** X15: a commit ends in one of two ways and in both leaves [total_co2]
    as it found it.  When it returns, it redirects to [/main], prints
    nothing and leaves the table as a local reset ([POST /reset]) would;
    when it raises, the table is untouched and exactly one line is printed,
    the text of the exception after [Error in /reset: ]. *)
Theorem commit_resets_or_leaves calc request w :
  total_co2 (fst (Main.renew calc request w)) = total_co2 w
  /\ match snd (Main.renew calc request w) with
     | Return response =>
         response = RedirectResponse "/main" 303 []
         /\ items (fst (Main.renew calc request w)) = items (fst (Demo.renew request w))
         /\ stdout (fst (Main.renew calc request w)) = stdout w
     | Raise e =>
         items (fst (Main.renew calc request w)) = items w
         /\ stdout (fst (Main.renew calc request w))
            = (stdout w ++ [("Error in /reset: " ++ str e)%string])%list
     end.
Proof.
  destruct (renew_cases calc request w) as [(m & e & -> & _)|(m & -> & _)]; done.
Qed.

(** ** Logout and the administrative routes *)

Lemma logout_noop request w :
  coll_sessions (mongo w) = [] -> fst (Main.logout request w) = w.
Proof.
  intros Hempty.
  unfold Main.logout, bind, read_mongo, write_mongo, get_items, ret; simpl.
  unfold Co2Ops.get_all_sessions. by rewrite Hempty.
Qed.

Lemma logout_empties_ledger request w :
  coll_sessions (mongo (fst (Main.logout request w))) = [].
Proof.
  destruct (coll_sessions (mongo w)) as [|s sess] eqn:Hledger.
  - by rewrite logout_noop.
  - unfold Main.logout, bind, read_mongo, write_mongo, get_items, ret; simpl.
    unfold Co2Ops.get_all_sessions. rewrite calculate_total_sums, Hledger.
    by rewrite bool_decide_eq_true_2 by (cbn [snd length]; lia).
Qed.

(** X16: a second logout right after a logout changes nothing more: the
    ledger is already empty, so no second Logout Archive Entry is written. *)
Theorem logout_twice request1 request2 w :
  fst (Main.logout request2 (fst (Main.logout request1 w)))
  = fst (Main.logout request1 w).
Proof. apply logout_noop, logout_empties_ledger. Qed.

(** X17: Session Records deleted through [GET /main/clear_SOS] are never
    archived: the logout that follows finds an empty ledger, writes no
    Logout Archive Entry and leaves the persisted item counts as they
    were. *)
Theorem clear_sessions_then_logout calc request1 request2 w :
  let w' := serve calc [(GET_main_clear_SOS, request1); (POST_main_logout, request2)] w in
  coll_sessions (mongo w') = []
  /\ coll_logs (mongo w') = coll_logs (mongo w)
  /\ coll_co2 (mongo w') = coll_co2 (mongo w)
  /\ items w' = items w.
Proof. done. Qed.

(** ** Repeated increments undone by as many decrements *)

Lemma serve_update_count calc request action item_name k w :
  serve calc (replicate k (POST_main action item_name, request)) w
  = set_items (Nat.iter k (Main.scan_categories action item_name) (items w)) w.
Proof.
  rewrite serve_replicate. cbn [dispatch].
  induction k as [|k IH]; [by destruct w|].
  rewrite !Nat.iter_succ, IH. reflexivity.
Qed.

Lemma update_first_fixed f item_name l :
  Forall (fun item => f item = item) l -> update_first f item_name l = l.
Proof.
  induction 1 as [|item rest Hitem Hrest IH]; simpl; [reflexivity|].
  case_decide; [by rewrite Hitem|by rewrite IH].
Qed.

Lemma recount_round_trip k item :
  item_inv item -> 0 <= count item ->
  recount (Z.max 0 (count (recount (count item + Z.of_nat k) item) - Z.of_nat k))
    (recount (count item + Z.of_nat k) item)
  = item.
Proof.
  destruct item as [nm n q b]. unfold item_inv, recount; simpl. intros -> Hn.
  by replace (Z.max 0 (n + Z.of_nat k - Z.of_nat k)) with n by lia.
Qed.

(** X18: where the invariant holds and no count is negative, [k]
    increments of a name followed by [k] decrements of the same name give
    back the world they started from. *)
Theorem increments_then_decrements calc request item_name k w :
  table_inv (items w) ->
  table_nonneg (items w) ->
  serve calc
    (replicate k (POST_main "increment" item_name, request)
     ++ replicate k (POST_main "decrement" item_name, request)) w
  = w.
Proof.
  intros Hinv Hpos. rewrite serve_app, !serve_update_count.
  destruct k as [|k]; [by destruct w|].
  cbn [items set_items]. rewrite !iter_scan_categories, map_map.
  unfold set_items; cbn [total_co2 mongo stdout].
  assert (map
            (fun c =>
               set_cat_items
                 (set_cat_items c
                    (update_first (Nat.iter (S k) (Main.on_match "increment")) item_name
                       (cat_items c)))
                 (update_first (Nat.iter (S k) (Main.on_match "decrement")) item_name
                    (cat_items
                       (set_cat_items c
                          (update_first (Nat.iter (S k) (Main.on_match "increment"))
                             item_name (cat_items c))))))
            (items w)
          = items w) as ->; [|by destruct w].
  unfold table_inv, table_nonneg in *.
  induction (items w) as [|c rest IH]; [reflexivity|].
  inversion Hinv as [|? ? Hc Hrest]; inversion Hpos as [|? ? Hc' Hrest']; subst.
  rewrite map_cons, IH by done. f_equal.
  unfold set_cat_items; cbn [cat_items category]. rewrite update_first_compose.
  - rewrite update_first_fixed; [by destruct c|].
    rewrite Forall_forall in *. intros item Hitem.
    rewrite iter_increment, iter_decrement.
    by apply recount_round_trip; [apply Hc|apply Hc'].
  - intros item. by rewrite iter_increment.
Qed.

Lemma increments_then_decrements_witness :
  table_inv (items Sample.tidy)
  /\ table_nonneg (items Sample.tidy)
  /\ serve Sample.calc
       (replicate 3 (POST_main "increment" "Cup", Sample.rq)
        ++ replicate 3 (POST_main "decrement" "Cup", Sample.rq)) Sample.tidy
     = Sample.tidy.
Proof.
  assert (table_inv (items Sample.tidy)) as Hinv
    by (apply (bool_decide_unpack _); vm_compute; exact I).
  assert (table_nonneg (items Sample.tidy)) as Hpos
    by (apply (bool_decide_unpack _); vm_compute; exact I).
  split; [exact Hinv|]. split; [exact Hpos|].
  exact (increments_then_decrements Sample.calc Sample.rq "Cup" 3 Sample.tidy Hinv Hpos).
Defined.
